(** * Agent performance dashboard: aggregation and period selection

    A shallow embedding of [app.py]: the weekly aggregation query of
    [load_weekly_data], the unified period selector, the ranking
    aggregation and the performance summary, together with the properties
    stated about them.

    Conventions of the model.
    - A [datetime.date] is the record of its three fields, as in CPython;
      ordinals, weekdays and date arithmetic follow [datetime.py].
    - A data frame is the list of its rows; a column is read with a record
      projection.  Counts are mathematical integers ([Z]).
    - A Python [float] is a binary64 value ([PrimFloat.float]); [int / int]
      and [round(x, 1)] are the correctly rounded operations of CPython.
    - A PostgreSQL [NUMERIC] is a decimal: an integer coefficient and a
      display scale.
    - A failing statement (an exception, a failing query) is [None]. *)

From Stdlib Require Import ZArith Floats Ascii String.
From stdpp Require Import base option list strings sorting.

Set Warnings "-inexact-float".
Local Open Scope Z_scope.

(** ** Calendar dates ([datetime.date]) *)

Module PyDate.

Record date : Type := mkdate { year : Z; month : Z; day : Z }.

#[global] Instance date_eq_dec : EqDecision date.
Proof. solve_decision. Defined.

Definition MINYEAR : Z := 1.
Definition MAXYEAR : Z := 9999.

(** [_is_leap]: year -> 1 if leap year, else 0. *)
Definition _is_leap (y : Z) : bool :=
  (y mod 4 =? 0) && (negb (y mod 100 =? 0) || (y mod 400 =? 0)).

(** The table [_DAYS_IN_MONTH]. *)
Definition _DAYS_IN_MONTH (m : Z) : Z :=
  match m with
  | 2 => 28
  | 4 | 6 | 9 | 11 => 30
  | _ => 31
  end.

(** [_days_in_month]: year, month -> number of days in that month. *)
Definition _days_in_month (y m : Z) : Z :=
  if (m =? 2) && _is_leap y then 29 else _DAYS_IN_MONTH m.

(** The constructor's check ([_check_date_fields]). *)
Definition valid_date (d : date) : Prop :=
  MINYEAR <= year d <= MAXYEAR /\ 1 <= month d <= 12 /\
  1 <= day d <= _days_in_month (year d) (month d).

Definition valid_dateb (d : date) : bool :=
  (MINYEAR <=? year d) && (year d <=? MAXYEAR) &&
  (1 <=? month d) && (month d <=? 12) &&
  (1 <=? day d) && (day d <=? _days_in_month (year d) (month d)).

(** [_days_before_year]: number of days before January 1st of year. *)
Definition _days_before_year (y : Z) : Z :=
  let y' := y - 1 in y' * 365 + y' / 4 - y' / 100 + y' / 400.

(** The table [_DAYS_BEFORE_MONTH]. *)
Definition _DAYS_BEFORE_MONTH (m : Z) : Z :=
  match m with
  | 1 => 0 | 2 => 31 | 3 => 59 | 4 => 90 | 5 => 120 | 6 => 151
  | 7 => 181 | 8 => 212 | 9 => 243 | 10 => 273 | 11 => 304 | 12 => 334
  | _ => 365
  end.

(** [_days_before_month]: number of days in year preceding first day of month. *)
Definition _days_before_month (y m : Z) : Z :=
  _DAYS_BEFORE_MONTH m + (if (2 <? m) && _is_leap y then 1 else 0).

(** [_ymd2ord]: ordinal, considering 01-Jan-0001 as day 1. *)
Definition _ymd2ord (y m d : Z) : Z :=
  _days_before_year y + _days_before_month y m + d.

Definition toordinal (d : date) : Z := _ymd2ord (year d) (month d) (day d).

Definition _DI400Y : Z := 146097.
Definition _DI100Y : Z := 36524.
Definition _DI4Y : Z := 1461.
Definition _MAXORDINAL : Z := 3652059.

(** The tail of [_ord2ymd]: month and day from the 0-based day of the
    year, estimating the month first and correcting the estimate. *)
Definition _doy2md (leapyear : bool) (n : Z) : Z * Z :=
  let m := Z.shiftr (n + 50) 5 in
  let preceding :=
    _DAYS_BEFORE_MONTH m + (if (2 <? m) && leapyear then 1 else 0) in
  if n <? preceding then
    let m' := m - 1 in
    let preceding' :=
      preceding - (_DAYS_IN_MONTH m' + (if (m' =? 2) && leapyear then 1 else 0)) in
    (m', n - preceding' + 1)
  else (m, n - preceding + 1).

(** [_ord2ymd]: ordinal -> (year, month, day). *)
Definition _ord2ymd (n : Z) : date :=
  let n := n - 1 in
  let n400 := n / _DI400Y in
  let n := n mod _DI400Y in
  let n100 := n / _DI100Y in
  let n := n mod _DI100Y in
  let n4 := n / _DI4Y in
  let n := n mod _DI4Y in
  let n1 := n / 365 in
  let n := n mod 365 in
  let y := n400 * 400 + 1 + n100 * 100 + n4 * 4 + n1 in
  if (n1 =? 4) || (n100 =? 4) then mkdate (y - 1) 12 31
  else
    let leapyear := (n1 =? 3) && (negb (n4 =? 24) || (n100 =? 3)) in
    let '(m, d) := _doy2md leapyear n in
    mkdate y m d.

Definition fromordinal (n : Z) : date := _ord2ymd n.

(** [date.__add__] with a [timedelta] of [days] whole days; [None] is the
    [OverflowError] raised when the result leaves [date.min .. date.max]. *)
Definition add_days (d : date) (days : Z) : option date :=
  let o := toordinal d + days in
  if (0 <? o) && (o <=? _MAXORDINAL) then Some (fromordinal o) else None.

(** [date.weekday]: Monday = 0 ... Sunday = 6. *)
Definition weekday (d : date) : Z := (toordinal d + 6) mod 7.

(** [date.replace(day=...)]; [None] is the [ValueError] of an invalid day. *)
Definition replace_day (d : date) (new_day : Z) : option date :=
  let d' := mkdate (year d) (month d) new_day in
  if valid_dateb d' then Some d' else None.

(** Comparison of dates: the order of the (year, month, day) triples. *)
Definition date_leb (a b : date) : bool :=
  (year a <? year b) ||
  ((year a =? year b) &&
   ((month a <? month b) || ((month a =? month b) && (day a <=? day b)))).

Definition date_le (a b : date) : Prop := date_leb a b = true.
Definition date_lt (a b : date) : Prop := date_leb b a = false.

Definition date_min (a b : date) : date := if date_leb a b then a else b.
Definition date_max (a b : date) : date := if date_leb a b then b else a.

End PyDate.
Export PyDate.

(** ** Python numbers: [int], [float], true division and [round] *)

Module PyNum.

(** The double nearest to [m * 2^e] (round half to even). *)
Definition float_of_scaled (m e : Z) (negative_zero : bool) : float :=
  SF2Prim (binary_normalize prec emax m e negative_zero).

Definition float_of_int (z : Z) : float := float_of_scaled z 0 false.

(** [int.__truediv__] for a non-zero divisor: the double nearest to the
    exact quotient.  The quotient is computed with at least 64 significant
    bits and a sticky bit for the remainder, then rounded once. *)
Definition int_truediv (a b : Z) : float :=
  let negate := xorb (a <? 0) (b <? 0) in
  let n := Z.abs a in
  let d := Z.abs b in
  if n =? 0 then float_of_scaled 0 0 negate
  else
    let s := Z.max 0 (64 + Z.log2 d - Z.log2 n) in
    let q := (n * 2 ^ s) / d in
    let sticky := if (n * 2 ^ s) mod d =? 0 then 0 else 1 in
    let m := 2 * q + sticky in
    float_of_scaled (if negate then - m else m) (- s - 1) negate.

(** The exact value of a finite double times ten, rounded to the nearest
    integer, ties to even: the digits [round(x, 1)] keeps. *)
Definition tenths_half_even (x : float) : Z :=
  match Prim2SF x with
  | S754_finite s m e =>
      let num := 10 * Z.pos m in
      let n :=
        if 0 <=? e then num * 2 ^ e
        else
          let den := 2 ^ (- e) in
          let q := num / den in
          let r := num mod den in
          if 2 * r <? den then q
          else if den <? 2 * r then q + 1
          else if Z.even q then q else q + 1 in
      if s then - n else n
  | _ => 0
  end.

Definition float_is_finite (x : float) : bool :=
  match Prim2SF x with
  | S754_finite _ _ _ | S754_zero _ => true
  | _ => false
  end.

Definition float_sign (x : float) : bool :=
  match Prim2SF x with
  | S754_finite s _ _ | S754_zero s | S754_infinity s => s
  | S754_nan => false
  end.

(** [float.__round__(x, 1)]: the shortest-decimal rounding of CPython
    ([double_round]): round the exact value to one decimal, read the
    decimal back as the nearest double.  Infinities and NaN round to
    themselves. *)
Definition float_round1 (x : float) : float :=
  if float_is_finite x then
    let n := tenths_half_even x in
    if n =? 0 then float_of_scaled 0 0 (float_sign x)
    else int_truediv n 10
  else x.

(** A Python number as the summary block handles them. *)
Inductive pynum : Type :=
  | PyInt (z : Z)
  | PyFloat (x : float).

(** [round(v, 1)]: an [int] rounds to itself, a [float] to one decimal. *)
Definition py_round1 (v : pynum) : pynum :=
  match v with
  | PyInt z => PyInt z
  | PyFloat x => PyFloat (float_round1 x)
  end.

(** [a / b * 100] on two [int]s, [b] non-zero. *)
Definition percent_of (a b : Z) : float :=
  PrimFloat.mul (int_truediv a b) (float_of_int 100).

End PyNum.
Export PyNum.


(** ** PostgreSQL values: [NUMERIC], NULL, [COUNT(DISTINCT ...)] *)

Module Sql.

(** A [NUMERIC] value [coef / 10 ^ dscale]. *)
Record numeric : Type := mknumeric { coef : Z; dscale : nat }.

Definition pow10 (s : nat) : Z := 10 ^ Z.of_nat s.

(** [n::NUMERIC] for an integer [n]. *)
Definition numeric_of_int (n : Z) : numeric := mknumeric n 0.

(** [num / den] rounded to the nearest integer, ties away from zero
    ([den] non-zero): the rounding of [NUMERIC] division and [ROUND]. *)
Definition div_round_half_away (num den : Z) : Z :=
  let q := (2 * Z.abs num + Z.abs den) / (2 * Z.abs den) in
  if xorb (num <? 0) (den <? 0) then - q else q.

(** [x / y] at result scale [rscale], [y] non-zero. *)
Definition numeric_div (rscale : nat) (x y : numeric) : numeric :=
  mknumeric
    (div_round_half_away (coef x * pow10 (dscale y) * pow10 rscale)
                         (coef y * pow10 (dscale x)))
    rscale.

(** [x * y]: exact, the scales add up. *)
Definition numeric_mul (x y : numeric) : numeric :=
  mknumeric (coef x * coef y) (dscale x + dscale y).

(** [ROUND(x, d)]. *)
Definition numeric_round (x : numeric) (d : nat) : numeric :=
  if (dscale x <=? d)%nat
  then mknumeric (coef x * pow10 (d - dscale x)) d
  else mknumeric (div_round_half_away (coef x) (pow10 (dscale x - d))) d.

(** Order of the values denoted. *)
Definition numeric_le (x y : numeric) : Prop :=
  coef x * pow10 (dscale y) <= coef y * pow10 (dscale x).

#[global] Instance numeric_le_dec x y : Decision (numeric_le x y).
Proof. unfold numeric_le. apply _. Defined.

(** [NULLIF(v, w)]: NULL when the two are equal. *)
Definition NULLIF (v w : Z) : option Z := if v =? w then None else Some v.

(** [COUNT(DISTINCT e)]: the number of distinct non-NULL values of [e]. *)
Definition count_distinct `{EqDecision A} (es : list (option A)) : Z :=
  Z.of_nat (length (remove_dups (omap id es))).

(** The weight (in base-10000 digits) and the leading base-10000 digit of a
    positive integer, as [NumericVar] stores it. *)
Fixpoint nbase_top (fuel : nat) (n : Z) : Z * Z :=
  match fuel with
  | O => (0, n)
  | S fuel' =>
      if n <? 10000 then (0, n)
      else let '(w, f) := nbase_top fuel' (n / 10000) in (w + 1, f)
  end.

Definition nbase_weight_digit (n : Z) : Z * Z :=
  nbase_top (Z.to_nat (Z.log2 (Z.abs n))) (Z.abs n).

(** PostgreSQL's [select_div_scale] on operands of display scale 0 (the
    integers the query casts): at least 16 significant digits. *)
Definition pg_select_div_scale (x y : numeric) : nat :=
  let '(weight1, firstdigit1) := nbase_weight_digit (coef x) in
  let '(weight2, firstdigit2) := nbase_weight_digit (coef y) in
  let qweight := weight1 - weight2 - (if firstdigit1 <=? firstdigit2 then 1 else 0) in
  let rscale := 16 - qweight * 4 in
  let rscale := Z.max rscale (Z.of_nat (dscale x)) in
  let rscale := Z.max rscale (Z.of_nat (dscale y)) in
  let rscale := Z.max rscale 0 in
  let rscale := Z.min rscale 1000 in
  Z.to_nat rscale.

End Sql.
Export Sql.

(** ** The store's tables *)

(** Modelled from the spec: the schema of the two tables the query reads is
    not part of the repository; section 6 gives
    [viewings(personId, Agent, Date: string "DD/MM/YYYY")] and
    [prospects(personId, Applied: nullable, Status: string)].  The query
    itself filters on [viewings."personId" IS NOT NULL], so that column is
    nullable. *)
Module viewings.
Record row : Type := mkrow {
  personId : option string;
  Agent : string;
  Date : string
}.
End viewings.

Module prospects.
Record row : Type := mkrow {
  personId : string;
  Applied : option string;
  Status : string
}.
End prospects.

(** ** The weekly metrics table [df] *)

Record WeeklyMetric : Type := mkWeeklyMetric {
  agent : string;
  week_start : date;
  week_end : date;
  total_viewings : Z;
  applications : Z;
  tenants : Z;
  view_to_app_rate : option numeric;
  app_to_tenant_rate : option numeric;
  total_conversion_rate : option numeric
}.

(** ** [load_weekly_data]: the aggregation query *)

Section load_weekly_data.

(** Three behaviours of the database server the query relies on, none of
    them fixed by the repository: the parser behind
    [TO_DATE(_, 'DD/MM/YYYY')] ([None]: the conversion fails and the query
    with it), the result scale chosen for a [NUMERIC] quotient, and the
    collation that orders [agent] in [ORDER BY]. *)
Variable TO_DATE : string -> option date.
Variable select_div_scale : numeric -> numeric -> nat.
Variable collate_leb : string -> string -> bool.

Record cleaned_viewing : Type := mkcleaned {
  cv_personId : string;
  cv_Agent : string;
  viewing_date : date
}.

(** CTE [cleaned_viewings]. *)
Definition cleaned_viewings (vs : list viewings.row)
  : option (list cleaned_viewing) :=
  mapM (fun '(pid, v) =>
          d ← TO_DATE (viewings.Date v);
          Some (mkcleaned pid (viewings.Agent v) d))
       (omap (fun v => pid ← viewings.personId v; Some (pid, v)) vs).

(** [cleaned_viewings v LEFT JOIN prospects p ON v."personId" = p."personId"]. *)
Definition left_join (vs : list cleaned_viewing) (ps : list prospects.row)
  : list (cleaned_viewing * option prospects.row) :=
  v ← vs;
  match filter (fun p => cv_personId v = prospects.personId p) ps with
  | [] => [(v, None)]
  | matches => (fun p => (v, Some p)) <$> matches
  end.

(** [DATE_TRUNC('week', d)::date]: the Monday of the week of [d]. *)
Definition date_trunc_week (d : date) : date :=
  fromordinal (toordinal d - weekday d).

Definition group_key (j : cleaned_viewing * option prospects.row)
  : string * date :=
  (cv_Agent j.1, date_trunc_week (viewing_date j.1)).

Record weekly_row : Type := mkweekly {
  w_agent : string;
  w_week_start : date;
  w_total_viewings : Z;
  w_applications : Z;
  w_tenants : Z
}.

(** [CASE WHEN p."Applied" IS NOT NULL THEN v."personId" END]. *)
Definition case_applied (j : cleaned_viewing * option prospects.row)
  : option string :=
  match j.2 ≫= prospects.Applied with
  | Some _ => Some (cv_personId j.1)
  | None => None
  end.

(** [CASE WHEN p."Status" = 'Current' THEN v."personId" END]. *)
Definition case_current (j : cleaned_viewing * option prospects.row)
  : option string :=
  match j.2 with
  | Some p => if decide (prospects.Status p = "Current")
              then Some (cv_personId j.1) else None
  | None => None
  end.

(** One group of [GROUP BY 1, 2]. *)
Definition weekly_group (joined : list (cleaned_viewing * option prospects.row))
    (k : string * date) : weekly_row :=
  let g := filter (fun j => group_key j = k) joined in
  mkweekly k.1 k.2
    (count_distinct ((fun j => Some (cv_personId j.1)) <$> g))
    (count_distinct (case_applied <$> g))
    (count_distinct (case_current <$> g)).

(** CTE [weekly]. *)
Definition weekly (joined : list (cleaned_viewing * option prospects.row))
  : list weekly_row :=
  weekly_group joined <$> remove_dups (group_key <$> joined).

(** [ROUND(a::NUMERIC / NULLIF(b, 0) * 100, 1)]; NULL propagates. *)
Definition rate (a b : Z) : option numeric :=
  d ← NULLIF b 0;
  let q := numeric_div (select_div_scale (numeric_of_int a) (numeric_of_int d))
                       (numeric_of_int a) (numeric_of_int d) in
  Some (numeric_round (numeric_mul q (numeric_of_int 100)) 1).

(** The final [SELECT] list.  [week_start + INTERVAL '6 days'] is kept as a
    date of the calendar of [PyDate]: a week that would end after
    9999-12-31 has no row here, and the table is then not produced. *)
Definition select_row (w : weekly_row) : option WeeklyMetric :=
  we ← add_days (w_week_start w) 6;
  Some (mkWeeklyMetric (w_agent w) (w_week_start w) we
          (w_total_viewings w) (w_applications w) (w_tenants w)
          (rate (w_applications w) (w_total_viewings w))
          (rate (w_tenants w) (w_applications w))
          (rate (w_tenants w) (w_total_viewings w))).

(** [ORDER BY week_start, agent]. *)
Definition order_by_leb (r1 r2 : WeeklyMetric) : bool :=
  negb (date_leb (week_start r2) (week_start r1)) ||
  (bool_decide (week_start r1 = week_start r2) &&
   collate_leb (agent r1) (agent r2)).

Definition load_weekly_data (vs : list viewings.row) (ps : list prospects.row)
  : option (list WeeklyMetric) :=
  cleaned ← cleaned_viewings vs;
  rows ← mapM select_row (weekly (left_join cleaned ps));
  Some (merge_sort (fun r1 r2 => Is_true (order_by_leb r1 r2)) rows).

End load_weekly_data.

(** A strict reader of the external format [DD/MM/YYYY]. *)
Definition digit_of (c : Ascii.ascii) : option Z :=
  let n := Z.of_N (N_of_ascii c) in
  if (48 <=? n) && (n <=? 57) then Some (n - 48) else None.

Definition to_date_ddmmyyyy (s : string) : option date :=
  match list_ascii_of_string s with
  | [d1; d2; s1; m1; m2; s2; y1; y2; y3; y4] =>
      if bool_decide (s1 = "/"%char) && bool_decide (s2 = "/"%char) then
        a ← digit_of d1; b ← digit_of d2;
        c ← digit_of m1; d ← digit_of m2;
        e ← digit_of y1; f ← digit_of y2; g ← digit_of y3; h ← digit_of y4;
        let dt := mkdate (e * 1000 + f * 100 + g * 10 + h) (c * 10 + d) (a * 10 + b) in
        if valid_dateb dt then Some dt else None
      else None
  | _ => None
  end.

(** The loader under the server behaviours used in the examples. *)
Definition pg_load_weekly_data :=
  load_weekly_data to_date_ddmmyyyy pg_select_div_scale String.leb.

(** ** The unified period selector *)

(** The radio button together with the dates read from the widgets of the
    chosen mode. *)
Inductive view_mode : Type :=
  | Week (selected_date : date)
  | Month (selected_month : date)
  | Custom_range (start_date end_date : date).

(** [d + pd.offsets.MonthEnd(1)] followed by [.date()]: the end of the
    month of [d], or of the next month when [d] is a month end already.
    The offset works on a [Timestamp]; the model takes the conversion of a
    date to succeed over the whole range of [datetime.date] (the resolution
    pandas 2 converts dates at).  [None] when the result is past
    [date.max]. *)
Definition add_MonthEnd (d : date) : option date :=
  let r :=
    if day d <? _days_in_month (year d) (month d)
    then mkdate (year d) (month d) (_days_in_month (year d) (month d))
    else if month d =? 12
         then mkdate (year d + 1) 1 (_days_in_month (year d + 1) 1)
         else mkdate (year d) (month d + 1) (_days_in_month (year d) (month d + 1)) in
  if year r <=? MAXYEAR then Some r else None.

(** The [if view_mode == ...] block: the pair [(start_date, end_date)]. *)
Definition resolve_period (m : view_mode) : option (date * date) :=
  match m with
  | Week selected_date =>
      end_date ← add_days selected_date 6;
      Some (selected_date, end_date)
  | Month selected_month =>
      start_date ← replace_day selected_month 1;
      end_date ← add_MonthEnd start_date;
      Some (start_date, end_date)
  | Custom_range start_date end_date => Some (start_date, end_date)
  end.

(** ** The ranking aggregation *)

(** [Series.unique()]: the distinct values in order of first appearance. *)
Fixpoint unique `{EqDecision A} (l : list A) : list A :=
  match l with
  | [] => []
  | x :: l' => x :: filter (fun y => y ≠ x) (unique l')
  end.

(** [sorted(...)] on strings: ascending code-point order. *)
Definition str_le (a b : string) : Prop := Is_true (String.leb a b).
Definition sorted_str (l : list string) : list string := merge_sort str_le l.

(** [df.query("@start_date <= week_start <= @end_date")]. *)
Definition period_df (df : list WeeklyMetric) (start_date end_date : date)
  : list WeeklyMetric :=
  filter (fun r => Is_true (date_leb start_date (week_start r) &&
                            date_leb (week_start r) end_date)) df.

(** A column sum. *)
Definition col_sum (col : WeeklyMetric -> Z) (rows : list WeeklyMetric) : Z :=
  foldr (fun r acc => col r + acc) 0 rows.

(** Rows of [agg_df]. *)
Module agg.
Record row : Type := mkrow { agent : string; total_viewings : Z; tenants : Z }.
End agg.

(** [groupby("agent", as_index=False).agg({"total_viewings": "sum",
    "tenants": "sum"})]: one row per agent present, keys in sorted order. *)
Definition groupby_agent_sum (rows : list WeeklyMetric) : list agg.row :=
  (fun a =>
     let g := filter (fun r => agent r = a) rows in
     agg.mkrow a (col_sum total_viewings g) (col_sum tenants g))
  <$> sorted_str (unique (agent <$> rows)).

(** [all_agents = pd.DataFrame({"agent": sorted(df["agent"].unique())})]. *)
Definition all_agents (df : list WeeklyMetric) : list string :=
  sorted_str (unique (agent <$> df)).

(** [left.merge(right, on="agent", how="left")]: the left order is kept; a
    key without a match gets NaN (here [None]) in the right columns. *)
Definition merge_left (left : list string) (right : list agg.row)
  : list (string * option Z * option Z) :=
  a ← left;
  match filter (fun r => agg.agent r = a) right with
  | [] => [(a, None, None)]
  | matches =>
      (fun r => (a, Some (agg.total_viewings r), Some (agg.tenants r))) <$> matches
  end.

(** [.fillna(0)]. *)
Definition fillna0 (rows : list (string * option Z * option Z)) : list agg.row :=
  (fun '(a, v, t) => agg.mkrow a (default 0 v) (default 0 t)) <$> rows.

(** [agg_df] after the zero-fill merge. *)
Definition agg_df (df : list WeeklyMetric) (start_date end_date : date)
  : list agg.row :=
  fillna0 (merge_left (all_agents df)
             (groupby_agent_sum (period_df df start_date end_date))).

(** [agg_df.melt(...)] with the metric names mapped for the legend. *)
Definition melted (rows : list agg.row) : list (string * string * Z) :=
  ((fun r => (agg.agent r, "Viewings", agg.total_viewings r)) <$> rows) ++
  ((fun r => (agg.agent r, "Tenants", agg.tenants r)) <$> rows).

Definition viewings_ge (x y : agg.row) : Prop :=
  agg.total_viewings y <= agg.total_viewings x.

(** [sort_values("total_viewings", ascending=False)].  The call leaves
    [kind] at its default, ["quicksort"], which pandas documents as not
    stable: the result is some rearrangement of the rows with the key
    non-increasing, and nothing more is promised about rows of equal key.
    The sort is therefore a parameter of the model, constrained by this
    contract only. *)
Definition sort_contract (sort_values : list agg.row -> list agg.row) : Prop :=
  (forall l, sort_values l ≡ₚ l) /\ (forall l, Sorted viewings_ge (sort_values l)).

(** What [kind="stable"] would add: rows of equal key keep their order. *)
Definition sort_stable (sort_values : list agg.row -> list agg.row) : Prop :=
  forall (l : list agg.row) (v : Z),
    filter (fun r => agg.total_viewings r = v) (sort_values l) =
    filter (fun r => agg.total_viewings r = v) l.

(** [agent_order]. *)
Definition agent_order (sort_values : list agg.row -> list agg.row)
    (df : list WeeklyMetric) (start_date end_date : date) : list string :=
  agg.agent <$> sort_values (agg_df df start_date end_date).

(** A sort that honours the contract and is stable, by insertion from the
    right end of the list: a row stops in front of the rows of equal key
    already placed, so rows of equal key keep their input order (what
    [kind="stable"] gives).  It is the concrete sort of the worked
    examples; the statements hold for every sort of the contract. *)
Fixpoint insert_desc (x : agg.row) (l : list agg.row) : list agg.row :=
  match l with
  | [] => [x]
  | y :: l' =>
      if agg.total_viewings y <=? agg.total_viewings x
      then x :: y :: l'
      else y :: insert_desc x l'
  end.

Definition insertion_sort_desc (l : list agg.row) : list agg.row :=
  foldr insert_desc [] l.

Definition stable_sort : list agg.row -> list agg.row :=
  insertion_sort_desc.

(** ** The performance summary *)

Module summary.
Record t : Type := mk {
  period_start : option date;
  period_end : option date;
  total_viewings : Z;
  total_apps : Z;
  total_tenants : Z;
  overall_conv : pynum;
  app_rate : pynum;
  tenant_rate : pynum
}.
End summary.

(** [Series.min()] and [Series.max()] on a column of dates; an empty column
    has none. *)
Definition dates_min (l : list date) : option date :=
  match l with
  | [] => None
  | d :: l' => Some (foldr date_min d l')
  end.

Definition dates_max (l : list date) : option date :=
  match l with
  | [] => None
  | d :: l' => Some (foldr date_max d l')
  end.

(** Truth value of an [int]. *)
Definition truthy (z : Z) : bool := negb (z =? 0).

(** [round((a / b * 100) if b else 0, 1)]. *)
Definition rounded_percent (a b : Z) : pynum :=
  py_round1 (if truthy b then PyFloat (percent_of a b) else PyInt 0).

(** The values of the summary block for [selected_agent].  For an agent
    without rows the two bounds are [None]; the narrative that formats them
    is not part of this definition. *)
Definition performance_summary (df : list WeeklyMetric) (selected_agent : string)
  : summary.t :=
  let rows := filter (fun r => agent r = selected_agent) df in
  let total_viewings := col_sum total_viewings rows in
  let total_apps := col_sum applications rows in
  let total_tenants := col_sum tenants rows in
  summary.mk
    (dates_min (week_start <$> rows))
    (dates_max (week_end <$> rows))
    total_viewings total_apps total_tenants
    (rounded_percent total_tenants total_viewings)
    (rounded_percent total_apps total_viewings)
    (rounded_percent total_tenants total_apps).

(** ** The page *)

Record page : Type := mkpage {
  ranking_bars : list (string * string * Z);
  ranking_order : list string;
  agent_trend : list (date * option numeric);
  narrative : summary.t
}.

(** Everything below the period selector, for the resolved period. *)
Definition render (sort_values : list agg.row -> list agg.row)
    (df : list WeeklyMetric)
    (start_date end_date : date) (selected_agent : string) : page :=
  let agg := agg_df df start_date end_date in
  mkpage (melted agg)
         (agent_order sort_values df start_date end_date)
         ((fun r => (week_start r, total_conversion_rate r))
            <$> filter (fun r => agent r = selected_agent) df)
         (performance_summary df selected_agent).

(** One run of the script on a loaded table. *)
Definition dashboard (sort_values : list agg.row -> list agg.row)
    (df : list WeeklyMetric)
    (m : view_mode) (selected_agent : string) : option page :=
  '(start_date, end_date) ← resolve_period m;
  Some (render sort_values df start_date end_date selected_agent).

(** ** The stated properties *)

(** Strict alphabetical order. *)
Definition str_lt (a b : string) : Prop := str_le a b /\ a ≠ b.

(** The sum of a column over the rows of one agent inside the period. *)
Definition period_sum (col : WeeklyMetric -> Z) (df : list WeeklyMetric)
    (start_date end_date : date) (a : string) : Z :=
  col_sum col (filter (fun r => agent r = a) (period_df df start_date end_date)).

(** Earlier in the rank order means a sum at least as large. *)
Definition rank_non_increasing (order : list string) (score : string -> Z) : Prop :=
  forall (i j : nat) (a b : string),
    (i < j)%nat -> order !! i = Some a -> order !! j = Some b -> score b <= score a.

(** Agents of equal sum appear in alphabetical order. *)
Definition ties_alphabetical (order : list string) (score : string -> Z) : Prop :=
  forall (i j : nat) (a b : string),
    (i < j)%nat -> order !! i = Some a -> order !! j = Some b ->
    score a = score b -> str_lt a b.

(** A percentage between 0 and 100. *)
Definition in_percent_range (x : numeric) : Prop :=
  numeric_le (numeric_of_int 0) x /\ numeric_le x (numeric_of_int 100).

(** A rate column holds NULL or a percentage between 0 and 100. *)
Definition null_or_percent (rate : option numeric) : Prop :=
  forall x, rate = Some x -> in_percent_range x.

(** A rate is NULL exactly when its denominator is zero. *)
Definition null_iff_zero_denominator (r : WeeklyMetric) : Prop :=
  (view_to_app_rate r = None <-> total_viewings r = 0) /\
  (app_to_tenant_rate r = None <-> applications r = 0) /\
  (total_conversion_rate r = None <-> total_viewings r = 0).

(** The claim C8 as stated, at one anchor: Week mode resolves, to the
    anchor itself and the date six days later. *)
Definition week_mode_claim (anchor : date) : Prop :=
  exists end_date,
    resolve_period (Week anchor) = Some (anchor, end_date) /\
    valid_date end_date /\ toordinal end_date = toordinal anchor + 6.

(** The claim C4 as stated: the rank order is non-increasing in the summed
    viewings and agents of equal sum appear alphabetically. *)
Definition rank_order_claim (sort_values : list agg.row -> list agg.row)
    (df : list WeeklyMetric) (start_date end_date : date) : Prop :=
  rank_non_increasing (agent_order sort_values df start_date end_date)
                      (period_sum total_viewings df start_date end_date) /\
  ties_alphabetical (agent_order sort_values df start_date end_date)
                    (period_sum total_viewings df start_date end_date).

(** The claim C1 as stated, for one row. *)
Definition weekly_rates_claim (r : WeeklyMetric) : Prop :=
  null_or_percent (view_to_app_rate r) /\
  null_or_percent (app_to_tenant_rate r) /\
  null_or_percent (total_conversion_rate r) /\
  null_iff_zero_denominator r.

(** The month and day found for a day of the year are those of the
    calendar tables. *)
Definition doy_ok (leap : bool) (n : Z) : Prop :=
  let md := _doy2md leap n in
  1 <= md.1 <= 12 /\
  1 <= md.2 <= (if (md.1 =? 2) && leap then 29 else _DAYS_IN_MONTH md.1) /\
  _DAYS_BEFORE_MONTH md.1 + (if (2 <? md.1) && leap then 1 else 0) + md.2 = n + 1.

#[local] Instance doy_ok_dec leap n : Decision (doy_ok leap n).
Proof. unfold doy_ok. apply _. Defined.

(** ** Sample data *)

(** One agent, one week, three viewers: one applied and was lost, two are
    current tenants without an application on record. *)
Definition sample_viewings : list viewings.row :=
  [viewings.mkrow (Some "p1") "A" "01/01/2024";
   viewings.mkrow (Some "p2") "A" "03/01/2024";
   viewings.mkrow (Some "p3") "A" "04/01/2024"].

Definition sample_prospects : list prospects.row :=
  [prospects.mkrow "p1" (Some "02/01/2024") "Lost";
   prospects.mkrow "p2" None "Current";
   prospects.mkrow "p3" None "Current"].

Definition sample_metric : WeeklyMetric :=
  mkWeeklyMetric "A" (mkdate 2024 1 1) (mkdate 2024 1 7) 3 1 2
    (Some (mknumeric 333 1)) (Some (mknumeric 2000 1)) (Some (mknumeric 667 1)).

(** Two agents with the same number of viewings in the same week. *)
Definition tied_df : list WeeklyMetric :=
  [mkWeeklyMetric "A" (mkdate 2024 1 1) (mkdate 2024 1 7) 5 2 1
     (Some (mknumeric 400 1)) (Some (mknumeric 500 1)) (Some (mknumeric 200 1));
   mkWeeklyMetric "B" (mkdate 2024 1 1) (mkdate 2024 1 7) 5 3 2
     (Some (mknumeric 600 1)) (Some (mknumeric 667 1)) (Some (mknumeric 400 1))].

(** An agent seen in one week of January and in one week of March. *)
Definition two_months_df : list WeeklyMetric :=
  [mkWeeklyMetric "A" (mkdate 2024 1 1) (mkdate 2024 1 7) 10 5 2
     (Some (mknumeric 500 1)) (Some (mknumeric 400 1)) (Some (mknumeric 200 1));
   mkWeeklyMetric "B" (mkdate 2024 1 1) (mkdate 2024 1 7) 0 0 0 None None None;
   mkWeeklyMetric "A" (mkdate 2024 3 4) (mkdate 2024 3 10) 8 4 4
     (Some (mknumeric 500 1)) (Some (mknumeric 1000 1)) (Some (mknumeric 500 1))].

(** ** Further definitions *)

(** Two agents in the first week of 2024, one of them again a week later. *)
Definition two_week_viewings : list viewings.row :=
  sample_viewings ++
  [viewings.mkrow (Some "p9") "B" "10/01/2024";
   viewings.mkrow (Some "p9") "B" "02/01/2024"].

(** The total of a list of counts. *)
Definition sumZ (l : list Z) : Z := foldr Z.add 0 l.

(** The persons who viewed with agent [a] in the week starting on [w]. *)
Definition group_viewers (cs : list cleaned_viewing) (a : string) (w : date)
  : list string :=
  cv_personId <$>
    filter (fun c => cv_Agent c = a /\ date_trunc_week (viewing_date c) = w) cs.

(** Person [x] has a prospect record satisfying [P]. *)
Definition has_prospect (P : prospects.row -> Prop) (ps : list prospects.row)
    (x : string) : Prop :=
  Exists (fun p => prospects.personId p = x /\ P p) ps.

(** The number of distinct values of a list. *)
Definition distinct `{EqDecision A} (l : list A) : Z :=
  Z.of_nat (length (remove_dups l)).

(** * Proofs *)

(** ** The model on known values *)

Example toordinal_2024_02_15 : toordinal (mkdate 2024 2 15) = 738931.
Proof. reflexivity. Qed.

Example fromordinal_738931 : fromordinal 738931 = mkdate 2024 2 15.
Proof. reflexivity. Qed.

Example fromordinal_max : fromordinal _MAXORDINAL = mkdate 9999 12 31.
Proof. reflexivity. Qed.

Example weekday_2024_01_01 : weekday (mkdate 2024 1 1) = 0.
Proof. reflexivity. Qed.

Example int_truediv_6_9 : int_truediv 6 9 = PrimFloat.div 6 9.
Proof. vm_compute. reflexivity. Qed.

Example int_truediv_1_10 : int_truediv 1 10 = 0.1%float.
Proof. vm_compute. reflexivity. Qed.

Example int_truediv_neg : int_truediv (-7) 3 = PrimFloat.div (-7) 3.
Proof. vm_compute. reflexivity. Qed.

Example float_round1_tie_even : float_round1 0.25 = 0.2%float.
Proof. vm_compute. reflexivity. Qed.

Example float_round1_2_675 : float_round1 2.675 = 2.7%float.
Proof. vm_compute. reflexivity. Qed.

Example float_round1_66 : float_round1 (percent_of 6 9) = 66.7%float.
Proof. vm_compute. reflexivity. Qed.

Example last_monday_9999 : weekday (mkdate 9999 12 27) = 0.
Proof. reflexivity. Qed.

(** ** Dates *)

Lemma date_leb_trans (a b c : date) :
  date_leb a b = true -> date_leb b c = true -> date_leb a c = true.
Proof.
  unfold date_leb.
  rewrite !orb_true_iff, !andb_true_iff, !orb_true_iff, !andb_true_iff,
    !Z.ltb_lt, !Z.eqb_eq, !Z.leb_le. lia.
Qed.

Lemma date_leb_refl (a : date) : date_leb a a = true.
Proof.
  unfold date_leb.
  rewrite !orb_true_iff, !andb_true_iff, !orb_true_iff, !andb_true_iff,
    !Z.ltb_lt, !Z.eqb_eq, !Z.leb_le. lia.
Qed.

Lemma valid_dateb_spec (d : date) : valid_dateb d = true <-> valid_date d.
Proof.
  unfold valid_dateb, valid_date. rewrite !andb_true_iff, !Z.leb_le. tauto.
Qed.

Lemma _days_in_month_bounds (y m : Z) : 28 <= _days_in_month y m <= 31.
Proof.
  unfold _days_in_month, _DAYS_IN_MONTH.
  destruct (_ && _); [lia|].
  destruct m as [|p|p]; try lia.
  do 4 (destruct p as [p|p|]; try lia).
Qed.

(** Month and day from the day of the year, checked on every day of a year. *)
Lemma _doy2md_ok (leap : bool) (n : Z) : 0 <= n < 365 -> doy_ok leap n.
Proof.
  intros Hn.
  assert (Hall : Forall (fun n => doy_ok true n /\ doy_ok false n) (seqZ 0 365)).
  { apply (bool_decide_unpack _). vm_compute. exact I. }
  rewrite Forall_forall in Hall.
  destruct (Hall n) as [Ht Hf]; [apply elem_of_seqZ; lia|].
  by destruct leap.
Qed.

(** Leap years, from the position of the year in the 400-year cycle. *)
Lemma _is_leap_cycle (a b c e : Z) :
  0 <= b <= 3 -> 0 <= c <= 24 -> 0 <= e <= 3 ->
  _is_leap (a * 400 + b * 100 + c * 4 + e + 1) =
  (e =? 3) && (negb (c =? 24) || (b =? 3)).
Proof.
  intros Hb Hc He. unfold _is_leap.
  set (y := a * 400 + b * 100 + c * 4 + e + 1).
  assert (H4 : y mod 4 = (e + 1) mod 4).
  { unfold y. replace (a * 400 + b * 100 + c * 4 + e + 1)
      with (e + 1 + (a * 100 + b * 25 + c) * 4) by lia. apply Z.mod_add. lia. }
  assert (H100 : y mod 100 = (c * 4 + e + 1) mod 100).
  { unfold y. replace (a * 400 + b * 100 + c * 4 + e + 1)
      with (c * 4 + e + 1 + (a * 4 + b) * 100) by lia. apply Z.mod_add. lia. }
  assert (H400 : y mod 400 = (b * 100 + c * 4 + e + 1) mod 400).
  { unfold y. replace (a * 400 + b * 100 + c * 4 + e + 1)
      with (b * 100 + c * 4 + e + 1 + a * 400) by lia. apply Z.mod_add. lia. }
  rewrite H4, H100, H400. clear H4 H100 H400 y.
  destruct (Z.eqb_spec e 3) as [->|He3]; simpl.
  - replace ((3 + 1) mod 4) with 0 by done. simpl.
    destruct (Z.eqb_spec c 24) as [->|Hc24]; simpl.
    + replace ((24 * 4 + 3 + 1) mod 100) with 0 by done. simpl.
      destruct (Z.eqb_spec b 3) as [->|Hb3]; [done|].
      rewrite Z.mod_small by lia. apply Z.eqb_neq. lia.
    + rewrite (Z.mod_small (c * 4 + 3 + 1)) by lia.
      replace (c * 4 + 3 + 1 =? 0) with false by (symmetry; apply Z.eqb_neq; lia).
      done.
  - assert (e = 0 \/ e = 1 \/ e = 2) as [->|[->| ->]] by lia; done.
Qed.

Lemma _days_before_year_cycle (a b c e : Z) :
  0 <= a -> 0 <= b <= 3 -> 0 <= c <= 24 -> 0 <= e <= 3 ->
  _days_before_year (a * 400 + b * 100 + c * 4 + e + 1) =
  a * 146097 + b * 36524 + c * 1461 + e * 365.
Proof.
  intros Ha Hb Hc He. unfold _days_before_year. cbv zeta.
  replace (a * 400 + b * 100 + c * 4 + e + 1 - 1)
    with (a * 400 + b * 100 + c * 4 + e) by lia.
  set (y := a * 400 + b * 100 + c * 4 + e).
  assert (H4 : y / 4 = a * 100 + b * 25 + c).
  { symmetry. apply (Z.div_unique y 4 _ e); unfold y; lia. }
  assert (H100 : y / 100 = a * 4 + b).
  { symmetry. apply (Z.div_unique y 100 _ (c * 4 + e)); unfold y; lia. }
  assert (H400 : y / 400 = a).
  { symmetry. apply (Z.div_unique y 400 _ (b * 100 + c * 4 + e)); unfold y; lia. }
  rewrite H4, H100, H400. unfold y. lia.
Qed.

Lemma fromordinal_toordinal (n : Z) :
  1 <= n <= _MAXORDINAL ->
  valid_date (fromordinal n) /\ toordinal (fromordinal n) = n.
Proof.
  unfold _MAXORDINAL. intros Hn.
  unfold fromordinal, _ord2ymd, _DI400Y, _DI100Y, _DI4Y. cbv zeta.
  pose proof (Z.div_mod (n - 1) 146097 ltac:(lia)) as E400.
  pose proof (Z.mod_pos_bound (n - 1) 146097 ltac:(lia)) as B400.
  set (a := (n - 1) / 146097) in *. set (r400 := (n - 1) mod 146097) in *.
  pose proof (Z.div_mod r400 36524 ltac:(lia)) as E100.
  pose proof (Z.mod_pos_bound r400 36524 ltac:(lia)) as B100.
  set (b := r400 / 36524) in *. set (r100 := r400 mod 36524) in *.
  pose proof (Z.div_mod r100 1461 ltac:(lia)) as E4.
  pose proof (Z.mod_pos_bound r100 1461 ltac:(lia)) as B4.
  set (c := r100 / 1461) in *. set (r4 := r100 mod 1461) in *.
  pose proof (Z.div_mod r4 365 ltac:(lia)) as E1.
  pose proof (Z.mod_pos_bound r4 365 ltac:(lia)) as B1.
  set (e := r4 / 365) in *. set (r1 := r4 mod 365) in *.
  assert (Ha : 0 <= a <= 24) by lia.
  assert (Hb : 0 <= b <= 4) by lia.
  assert (Hc : 0 <= c <= 24) by lia.
  assert (He : 0 <= e <= 4) by lia.
  destruct (Z.eqb_spec e 4) as [He4|He4]; simpl.
  { (* the last day of a four-year cycle *)
    assert (Hy : a * 400 + 1 + b * 100 + c * 4 + e - 1 =
                 a * 400 + b * 100 + c * 4 + 3 + 1) by lia.
    rewrite Hy. unfold valid_date, toordinal, _ymd2ord, _days_before_month,
      _days_in_month. simpl year; simpl month; simpl day.
    rewrite _is_leap_cycle, _days_before_year_cycle by lia.
    replace (3 =? 3) with true by done.
    replace (c =? 24) with false by (symmetry; apply Z.eqb_neq; lia).
    simpl. unfold MINYEAR, MAXYEAR. lia. }
  destruct (Z.eqb_spec b 4) as [Hb4|Hb4]; simpl.
  { (* the last day of a 400-year cycle *)
    assert (Hy : a * 400 + 1 + b * 100 + c * 4 + e - 1 =
                 a * 400 + 3 * 100 + 24 * 4 + 3 + 1) by lia.
    rewrite Hy. unfold valid_date, toordinal, _ymd2ord, _days_before_month,
      _days_in_month. simpl year; simpl month; simpl day.
    rewrite _is_leap_cycle, _days_before_year_cycle by lia.
    simpl. unfold MINYEAR, MAXYEAR. lia. }
  assert (Hy : a * 400 + 1 + b * 100 + c * 4 + e =
               a * 400 + b * 100 + c * 4 + e + 1) by lia.
  rewrite Hy. clear Hy.
  set (leapyear := (e =? 3) && (negb (c =? 24) || (b =? 3))).
  pose proof (_doy2md_ok leapyear r1 B1) as Hmd. unfold doy_ok in Hmd.
  destruct (_doy2md leapyear r1) as [m d]. simpl in Hmd.
  destruct Hmd as (Hm & Hd & Hsum).
  unfold valid_date, toordinal, _ymd2ord, _days_before_month, _days_in_month.
  simpl year; simpl month; simpl day.
  rewrite _is_leap_cycle, _days_before_year_cycle by lia.
  fold leapyear. unfold MINYEAR, MAXYEAR. repeat split; try lia.
Qed.

Lemma toordinal_pos (d : date) : valid_date d -> 1 <= toordinal d.
Proof.
  unfold valid_date, MINYEAR, toordinal, _ymd2ord, _days_before_year,
    _days_before_month, _DAYS_BEFORE_MONTH.
  intros (Hy & Hm & Hd). cbv zeta.
  assert ((year d - 1) / 100 <= (year d - 1) / 4).
  { apply Z.div_le_compat_l; lia. }
  assert (0 <= (year d - 1) / 400) by (apply Z.div_pos; lia).
  assert (0 <= if (2 <? month d) && _is_leap (year d) then 1 else 0)
    by (destruct (_ && _); lia).
  destruct (month d) as [|p|p]; try lia.
  do 4 (destruct p as [p|p|]; try lia).
Qed.

Lemma add_days_Some (d : date) (k : Z) :
  valid_date d -> 0 <= k -> toordinal d + k <= _MAXORDINAL ->
  exists d', add_days d k = Some d' /\ valid_date d' /\
             toordinal d' = toordinal d + k.
Proof.
  intros Hd Hk Hmax. pose proof (toordinal_pos d Hd) as Hpos.
  unfold add_days. cbv zeta.
  replace (0 <? toordinal d + k) with true by (symmetry; apply Z.ltb_lt; lia).
  replace (toordinal d + k <=? _MAXORDINAL) with true
    by (symmetry; apply Z.leb_le; lia).
  simpl. eexists. split; [done|]. apply fromordinal_toordinal. lia.
Qed.

Lemma add_days_None (d : date) (k : Z) :
  _MAXORDINAL < toordinal d + k -> add_days d k = None.
Proof.
  intros Hmax. unfold add_days. cbv zeta.
  replace (toordinal d + k <=? _MAXORDINAL) with false
    by (symmetry; apply Z.leb_gt; lia).
  by rewrite andb_false_r.
Qed.

(** ** The period selector *)

Lemma first_of_month_valid (d : date) :
  valid_date d -> valid_date (mkdate (year d) (month d) 1).
Proof.
  unfold valid_date. simpl. pose proof (_days_in_month_bounds (year d) (month d)).
  lia.
Qed.

Lemma end_of_month_valid (d : date) :
  valid_date d ->
  valid_date (mkdate (year d) (month d) (_days_in_month (year d) (month d))).
Proof.
  unfold valid_date. simpl. pose proof (_days_in_month_bounds (year d) (month d)).
  lia.
Qed.

Lemma resolve_month (anchor : date) :
  valid_date anchor ->
  resolve_period (Month anchor) =
  Some (mkdate (year anchor) (month anchor) 1,
        mkdate (year anchor) (month anchor)
               (_days_in_month (year anchor) (month anchor))).
Proof.
  intros Hv. unfold resolve_period, replace_day. cbv zeta.
  rewrite (proj2 (valid_dateb_spec _) (first_of_month_valid anchor Hv)). simpl.
  unfold add_MonthEnd. simpl.
  pose proof (_days_in_month_bounds (year anchor) (month anchor)).
  replace (1 <? _days_in_month (year anchor) (month anchor)) with true
    by (symmetry; apply Z.ltb_lt; lia).
  simpl. destruct Hv as [[_ Hy] _].
  by rewrite (proj2 (Z.leb_le _ _) Hy).
Qed.

(** C7 -- Month mode: for every anchor date the period starts on the first
    day of the anchor's month and ends on the last day of that same month
    (both are dates, and the anchor lies between them); the anchor
    2024-02-15 resolves to 2024-02-01 .. 2024-02-29. *)
Theorem month_mode_resolves :
  (forall anchor : date,
     valid_date anchor ->
     exists start_date end_date,
       resolve_period (Month anchor) = Some (start_date, end_date) /\
       valid_date start_date /\ valid_date end_date /\
       year start_date = year anchor /\ month start_date = month anchor /\
       day start_date = 1 /\
       year end_date = year anchor /\ month end_date = month anchor /\
       day end_date = _days_in_month (year anchor) (month anchor) /\
       date_le start_date anchor /\ date_le anchor end_date) /\
  resolve_period (Month (mkdate 2024 2 15)) =
  Some (mkdate 2024 2 1, mkdate 2024 2 29).
Proof.
  split; [|reflexivity].
  intros anchor Hv. do 2 eexists. split; [by apply resolve_month|].
  split; [by apply first_of_month_valid|].
  split; [by apply end_of_month_valid|]. simpl.
  do 6 (split; [done|]).
  destruct Hv as (_ & _ & Hd).
  unfold date_le, date_leb. simpl.
  rewrite !Z.eqb_refl, !Z.ltb_irrefl. simpl.
  split; apply Z.leb_le; lia.
Qed.

Lemma month_mode_resolves_witness :
  valid_date (mkdate 2023 12 31) /\
  exists start_date end_date,
    resolve_period (Month (mkdate 2023 12 31)) = Some (start_date, end_date) /\
    valid_date start_date /\ valid_date end_date /\
    year start_date = 2023 /\ month start_date = 12 /\ day start_date = 1 /\
    year end_date = 2023 /\ month end_date = 12 /\ day end_date = 31 /\
    date_le start_date (mkdate 2023 12 31) /\
    date_le (mkdate 2023 12 31) end_date.
Proof.
  assert (Hv : valid_date (mkdate 2023 12 31)) by (vm_compute; intuition discriminate).
  split; [exact Hv|].
  exact (proj1 month_mode_resolves (mkdate 2023 12 31) Hv).
Defined.

(** C8, counterexample: on 9999-12-31 the sixth following day is past
    [date.max]; the addition raises and no period is resolved. *)
Lemma week_mode_overflow :
  valid_date (mkdate 9999 12 31) /\ ~ week_mode_claim (mkdate 9999 12 31).
Proof.
  split; [vm_compute; intuition discriminate|].
  intros (e & He & _). vm_compute in He. discriminate.
Qed.

(** C8, as amended -- Week mode: for every anchor date whose sixth
    following day is still a date (anchors up to 9999-12-25) the period
    starts on the anchor exactly as given, whatever its weekday, and ends
    six days later; for the later anchors the addition raises and nothing
    is resolved. *)
Theorem week_mode_resolves (anchor : date) :
  valid_date anchor ->
  (toordinal anchor + 6 <= _MAXORDINAL -> week_mode_claim anchor) /\
  (_MAXORDINAL < toordinal anchor + 6 -> resolve_period (Week anchor) = None).
Proof.
  intros Hv. split; intros Hmax.
  - destruct (add_days_Some anchor 6 Hv ltac:(lia) Hmax) as (e & He & Hve & Hord).
    exists e. unfold resolve_period. by rewrite He.
  - unfold resolve_period. by rewrite add_days_None.
Qed.

Lemma week_mode_resolves_witness :
  weekday (mkdate 2024 1 3) = 2 /\
  resolve_period (Week (mkdate 2024 1 3)) =
  Some (mkdate 2024 1 3, mkdate 2024 1 9) /\
  week_mode_claim (mkdate 2024 1 3).
Proof.
  split; [reflexivity|]. split; [reflexivity|].
  apply (week_mode_resolves (mkdate 2024 1 3)).
  - vm_compute; intuition discriminate.
  - vm_compute; discriminate.
Defined.

(** ** Alphabetical order *)

Lemma ascii_compare_refl (c : Ascii.ascii) : Ascii.compare c c = Eq.
Proof. apply N.compare_refl. Qed.

Lemma string_leb_refl (a : string) : String.leb a a = true.
Proof.
  unfold String.leb. induction a as [|c a IH]; simpl; [done|].
  by rewrite ascii_compare_refl.
Qed.

Lemma string_leb_trans (a b c : string) :
  String.leb a b = true -> String.leb b c = true -> String.leb a c = true.
Proof.
  unfold String.leb. revert b c.
  induction a as [|x a IH]; intros [|y b] [|z c]; simpl; try done.
  unfold Ascii.compare.
  destruct (N.compare_spec (N_of_ascii x) (N_of_ascii y)) as [Hxy|Hxy|Hxy];
    destruct (N.compare_spec (N_of_ascii y) (N_of_ascii z)) as [Hyz|Hyz|Hyz];
    try done.
  - rewrite Hxy, Hyz, N.compare_refl. apply IH.
  - rewrite Hxy. by rewrite (proj2 (N.compare_lt_iff _ _) Hyz).
  - rewrite <- Hyz. by rewrite (proj2 (N.compare_lt_iff _ _) Hxy).
  - by rewrite (proj2 (N.compare_lt_iff _ _) (N.lt_trans _ _ _ Hxy Hyz)).
Qed.

#[local] Instance str_le_trans : Transitive str_le.
Proof.
  intros a b c Hab Hbc. apply Is_true_true.
  eapply string_leb_trans; by apply Is_true_true.
Qed.

#[local] Instance str_le_total : Total str_le.
Proof.
  intros a b. destruct (String.leb_total a b) as [H|H];
    [left | right]; by apply Is_true_true.
Qed.

#[local] Instance str_le_antisym : AntiSymm (=) str_le.
Proof.
  intros a b Hab Hba. apply String.leb_antisym; by apply Is_true_true.
Qed.

Lemma sorted_str_perm (l : list string) : sorted_str l ≡ₚ l.
Proof. apply merge_sort_Permutation. Qed.

Lemma sorted_str_elem_of (l : list string) (a : string) :
  a ∈ sorted_str l <-> a ∈ l.
Proof. by rewrite sorted_str_perm. Qed.

Lemma sorted_str_sorted (l : list string) : StronglySorted str_le (sorted_str l).
Proof. apply StronglySorted_merge_sort; apply _. Qed.

(** ** [unique] *)

Section unique.
Context `{EqDecision A}.
Implicit Types l : list A.

Lemma elem_of_unique l x : x ∈ unique l <-> x ∈ l.
Proof.
  induction l as [|y l IH]; simpl; [done|].
  rewrite !elem_of_cons, list_elem_of_filter, IH.
  destruct (decide (x = y)); tauto.
Qed.

Lemma NoDup_unique l : NoDup (unique l).
Proof.
  induction l as [|y l IH]; simpl; [constructor|].
  constructor.
  - rewrite list_elem_of_filter. tauto.
  - by apply NoDup_filter.
Qed.
End unique.

Lemma sorted_unique_NoDup (l : list string) : NoDup (sorted_str (unique l)).
Proof. rewrite sorted_str_perm. apply NoDup_unique. Qed.

Lemma StronglySorted_le_lt (l : list string) :
  NoDup l -> StronglySorted str_le l -> StronglySorted str_lt l.
Proof.
  induction 2 as [|x l Hs IH Hx]; [constructor|].
  apply NoDup_cons in H as [Hnin Hnd]. constructor; [by apply IH|].
  apply Forall_forall. intros y Hy. split.
  - by eapply Forall_forall in Hx.
  - intros ->. done.
Qed.

(** ** The zero-fill merge *)

Lemma filter_fmap_key {K B} `{EqDecision K} (key : B -> K) (f : K -> B)
    (ks : list K) (a : K) :
  (forall k, key (f k) = k) -> NoDup ks ->
  filter (fun r => key r = a) (f <$> ks) = if decide (a ∈ ks) then [f a] else [].
Proof.
  intros Hkey. induction 1 as [|k ks Hnin Hnd IH]; [done|].
  rewrite fmap_cons, filter_cons, IH, Hkey. destruct (decide (k = a)) as [->|Hne].
  - rewrite (decide_False (P := a ∈ ks)) by done.
    by rewrite decide_True by left.
  - destruct (decide (a ∈ ks)) as [Hin|Hnin'].
    + rewrite decide_True by (by right). done.
    + rewrite decide_False; [done|]. rewrite elem_of_cons. intros [?|?]; done.
Qed.

Lemma filter_no_match {B} (P : B -> Prop) `{forall x, Decision (P x)} (l : list B) :
  (forall x, x ∈ l -> ¬ P x) -> filter P l = [].
Proof.
  induction l as [|x l IH]; intros Hno; [done|].
  rewrite filter_cons_False by (apply Hno; left).
  apply IH. intros y Hy. apply Hno. by right.
Qed.

Lemma agg_df_rows (df : list WeeklyMetric) (s e : date) :
  agg_df df s e =
  (fun a => agg.mkrow a (period_sum total_viewings df s e a)
                        (period_sum tenants df s e a)) <$> all_agents df.
Proof.
  unfold agg_df, groupby_agent_sum, period_sum.
  generalize (period_df df s e) as P. intros P.
  induction (all_agents df) as [|a l IH]; [done|].
  change (merge_left (a :: l) ?R) with
    (match filter (fun r => agg.agent r = a) R with
     | [] => [(a, None, None)]
     | matches => (fun r => (a, Some (agg.total_viewings r), Some (agg.tenants r))) <$> matches
     end ++ merge_left l R).
  unfold fillna0 in *. rewrite fmap_app, IH, fmap_cons. f_equal.
  rewrite (filter_fmap_key agg.agent _ _ a); [|done|apply sorted_unique_NoDup].
  destruct (decide _) as [Hin|Hnin]; [done|].
  simpl. rewrite filter_no_match; [done|].
  intros r Hr Ha. apply Hnin. rewrite sorted_str_elem_of, elem_of_unique.
  apply list_elem_of_fmap. eauto.
Qed.

Lemma elem_of_all_agents (df : list WeeklyMetric) (a : string) :
  a ∈ all_agents df <-> exists r, r ∈ df /\ agent r = a.
Proof.
  unfold all_agents. rewrite sorted_str_elem_of, elem_of_unique, list_elem_of_fmap.
  split; intros (r & H1 & H2); eauto.
Qed.

Lemma all_agents_NoDup (df : list WeeklyMetric) : NoDup (all_agents df).
Proof. apply sorted_unique_NoDup. Qed.

Lemma all_agents_sorted (df : list WeeklyMetric) :
  StronglySorted str_lt (all_agents df).
Proof.
  apply StronglySorted_le_lt; [apply all_agents_NoDup | apply sorted_str_sorted].
Qed.

Lemma agg_df_agents (df : list WeeklyMetric) (s e : date) :
  agg.agent <$> agg_df df s e = all_agents df.
Proof.
  rewrite agg_df_rows, <- list_fmap_compose. apply list_fmap_id.
Qed.

Lemma elem_of_agg_df (df : list WeeklyMetric) (s e : date) (row : agg.row) :
  row ∈ agg_df df s e ->
  agg.agent row ∈ all_agents df /\
  agg.total_viewings row = period_sum total_viewings df s e (agg.agent row) /\
  agg.tenants row = period_sum tenants df s e (agg.agent row).
Proof.
  rewrite agg_df_rows, list_elem_of_fmap. by intros (a & -> & Ha).
Qed.

Lemma period_sum_no_rows (col : WeeklyMetric -> Z) (df : list WeeklyMetric)
    (s e : date) (a : string) :
  (forall r, r ∈ period_df df s e -> agent r ≠ a) -> period_sum col df s e a = 0.
Proof.
  intros Hno. unfold period_sum. by rewrite filter_no_match.
Qed.

(** ** Sorting by viewings *)

#[local] Instance viewings_ge_trans : Transitive viewings_ge.
Proof. unfold viewings_ge. intros x y z. lia. Qed.

Lemma StronglySorted_lookup {A} (R : relation A) (l : list A) (i j : nat) (x y : A) :
  StronglySorted R l -> (i < j)%nat -> l !! i = Some x -> l !! j = Some y -> R x y.
Proof.
  intros Hs. revert i j. induction Hs as [|z l Hs IH Hz]; intros i j Hij Hi Hj.
  - done.
  - destruct j as [|j]; [lia|]. destruct i as [|i]; simpl in *.
    + simplify_eq. eapply Forall_forall in Hz; [done|].
      by eapply list_elem_of_lookup_2.
    + eapply (IH i j); [lia|done..].
Qed.

Lemma sublist_of_lookups {A} (l : list A) (i j : nat) (x y : A) :
  (i < j)%nat -> l !! i = Some x -> l !! j = Some y -> [x; y] `sublist_of` l.
Proof.
  intros Hij Hi Hj. rewrite <- (take_drop_middle l i x Hi).
  apply sublist_inserts_l, sublist_skip, singleton_sublist_l.
  apply (list_elem_of_lookup_2 _ (j - S i)).
  rewrite lookup_drop. by replace (S i + (j - S i))%nat with j by lia.
Qed.

Lemma filter_sublist {A} (P : A -> Prop) `{forall x, Decision (P x)} (l k : list A) :
  l `sublist_of` k -> filter P l `sublist_of` filter P k.
Proof.
  induction 1 as [|x l k Hs IH|x l k Hs IH]; [done|..]; rewrite ?filter_cons.
  - destruct (decide (P x)); [by apply sublist_skip|done].
  - destruct (decide (P x)); [by apply sublist_cons|done].
Qed.

Lemma StronglySorted_pair {A} (R : relation A) (l : list A) (x y : A) :
  StronglySorted R l -> [x; y] `sublist_of` l -> R x y.
Proof.
  induction 1 as [|z l Hs IH Hz]; intros Hsub.
  - by apply sublist_nil_r in Hsub.
  - apply sublist_cons_r in Hsub as [Hsub|(k & [= -> <-] & Hsub)]; [by apply IH|].
    eapply Forall_forall in Hz; [done|]. by apply singleton_sublist_l.
Qed.

Section ranking.
Variable sort_values : list agg.row -> list agg.row.
Hypothesis Hsort : sort_contract sort_values.

Lemma sorted_rows_score (df : list WeeklyMetric) (s e : date) (r : agg.row) :
  r ∈ sort_values (agg_df df s e) ->
  agg.total_viewings r = period_sum total_viewings df s e (agg.agent r).
Proof.
  rewrite (proj1 Hsort). intros Hr. by apply elem_of_agg_df in Hr as (_ & ? & _).
Qed.

Lemma agent_order_non_increasing (df : list WeeklyMetric) (s e : date) :
  rank_non_increasing (agent_order sort_values df s e)
                      (period_sum total_viewings df s e).
Proof.
  intros i j a b Hij Hi Hj. unfold agent_order in *.
  apply list_lookup_fmap_Some in Hi as (x & -> & Hx).
  apply list_lookup_fmap_Some in Hj as (y & -> & Hy).
  rewrite <- !sorted_rows_score by (by eapply list_elem_of_lookup_2).
  eapply (StronglySorted_lookup viewings_ge); [|done..].
  apply Sorted_StronglySorted; [apply _|apply Hsort].
Qed.

Lemma agent_order_perm (df : list WeeklyMetric) (s e : date) :
  agent_order sort_values df s e ≡ₚ all_agents df.
Proof. unfold agent_order. by rewrite (proj1 Hsort), agg_df_agents. Qed.

(** Under a stable sort, rows of equal key stay in the order of [agg_df],
    which is the alphabetical order of the agents. *)
Lemma stable_order_ties (df : list WeeklyMetric) (s e : date) :
  sort_stable sort_values ->
  ties_alphabetical (agent_order sort_values df s e)
                    (period_sum total_viewings df s e).
Proof.
  intros Hstable i j a b Hij Hi Hj Heq. unfold agent_order in *.
  apply list_lookup_fmap_Some in Hi as (x & -> & Hx).
  apply list_lookup_fmap_Some in Hj as (y & -> & Hy).
  rewrite <- !sorted_rows_score in Heq by (by eapply list_elem_of_lookup_2).
  pose proof (sublist_of_lookups _ i j x y Hij Hx Hy) as Hsub.
  apply (filter_sublist (fun r => agg.total_viewings r = agg.total_viewings x)) in Hsub.
  rewrite Hstable in Hsub.
  rewrite !filter_cons, decide_True, decide_True in Hsub by done.
  change (filter _ []) with (@nil agg.row) in Hsub.
  assert (Hin : [x; y] `sublist_of` agg_df df s e).
  { etrans; [exact Hsub|apply sublist_filter]. }
  apply (StronglySorted_pair (fun x y => str_lt (agg.agent x) (agg.agent y)))
    in Hin; [done|].
  clear. pose proof (all_agents_sorted df) as Hs.
  rewrite <- (agg_df_agents df s e) in Hs.
  induction (agg_df df s e) as [|r l IH]; [constructor|].
  rewrite fmap_cons in Hs. apply StronglySorted_inv in Hs as [Hs Hr].
  constructor; [by apply IH|]. by rewrite Forall_fmap in Hr.
Qed.

End ranking.

(** *** The insertion sort *)

Lemma insert_desc_perm (x : agg.row) (l : list agg.row) :
  insert_desc x l ≡ₚ x :: l.
Proof.
  induction l as [|y l IH]; simpl; [done|].
  destruct (_ <=? _); [done|].
  by rewrite IH, Permutation_swap.
Qed.

Lemma insertion_sort_desc_perm (l : list agg.row) :
  insertion_sort_desc l ≡ₚ l.
Proof.
  induction l as [|x l IH]; simpl; [done|].
  by rewrite insert_desc_perm, IH.
Qed.

Lemma insert_desc_HdRel (x y : agg.row) (l : list agg.row) :
  viewings_ge y x -> HdRel viewings_ge y l ->
  HdRel viewings_ge y (insert_desc x l).
Proof.
  intros Hxy Hy. destruct l as [|z l]; simpl; [by constructor|].
  destruct (_ <=? _); constructor; [done|]. by inversion Hy.
Qed.

Lemma insert_desc_sorted (x : agg.row) (l : list agg.row) :
  Sorted viewings_ge l -> Sorted viewings_ge (insert_desc x l).
Proof.
  induction 1 as [|y l Hs IH Hy]; simpl; [by repeat constructor|].
  destruct (Z.leb_spec (agg.total_viewings y) (agg.total_viewings x)).
  - constructor; [by constructor|]. by constructor.
  - constructor; [done|]. apply insert_desc_HdRel; [|done].
    unfold viewings_ge. lia.
Qed.

Lemma insertion_sort_desc_contract : sort_contract insertion_sort_desc.
Proof.
  split; [apply insertion_sort_desc_perm|].
  induction l as [|x l IH]; simpl; [constructor|]. by apply insert_desc_sorted.
Qed.

Lemma insert_desc_filter (x : agg.row) (l : list agg.row) (v : Z) :
  filter (fun r => agg.total_viewings r = v) (insert_desc x l) =
  filter (fun r => agg.total_viewings r = v) (x :: l).
Proof.
  induction l as [|y l IH]; simpl; [done|].
  destruct (Z.leb_spec (agg.total_viewings y) (agg.total_viewings x)) as [|Hlt];
    [done|].
  rewrite (filter_cons _ y), IH, !filter_cons.
  destruct (decide (agg.total_viewings y = v)), (decide (agg.total_viewings x = v));
    try done. lia.
Qed.

Lemma stable_sort_stable : sort_stable stable_sort.
Proof.
  intros l v. unfold stable_sort.
  induction l as [|x l IH]; simpl; [done|].
  by rewrite insert_desc_filter, !filter_cons, IH.
Qed.

(** ** The ranking aggregation: zero-fill, rank order, inverted ranges *)

(** C3 -- zero-fill: whatever the period, [agg_df] has exactly one row per
    agent of the whole table, in alphabetical order and without repetition;
    no other agent appears; every row carries the agent's sums over the
    period, and an agent without a row inside the period has both sums
    equal to zero. *)
Theorem aggregator_zero_fill (df : list WeeklyMetric) (start_date end_date : date) :
  agg.agent <$> agg_df df start_date end_date = all_agents df /\
  NoDup (all_agents df) /\
  (forall a, a ∈ all_agents df <-> exists r, r ∈ df /\ agent r = a) /\
  (forall row, row ∈ agg_df df start_date end_date ->
     agg.total_viewings row =
       period_sum total_viewings df start_date end_date (agg.agent row) /\
     agg.tenants row = period_sum tenants df start_date end_date (agg.agent row)) /\
  (forall row, row ∈ agg_df df start_date end_date ->
     (forall r, r ∈ period_df df start_date end_date -> agent r ≠ agg.agent row) ->
     agg.total_viewings row = 0 /\ agg.tenants row = 0).
Proof.
  split; [apply agg_df_agents|]. split; [apply all_agents_NoDup|].
  split; [apply elem_of_all_agents|]. split.
  - intros row Hrow. by apply elem_of_agg_df in Hrow as (_ & ? & ?).
  - intros row Hrow Hno. apply elem_of_agg_df in Hrow as (_ & -> & ->).
    by rewrite !period_sum_no_rows.
Qed.

Lemma aggregator_zero_fill_witness :
  agg_df two_months_df (mkdate 2024 3 1) (mkdate 2024 3 31) =
    [agg.mkrow "A" 8 4; agg.mkrow "B" 0 0] /\
  agg.agent <$> agg_df two_months_df (mkdate 2024 3 1) (mkdate 2024 3 31) =
    all_agents two_months_df.
Proof.
  split; [vm_compute; reflexivity|].
  exact (proj1 (aggregator_zero_fill two_months_df (mkdate 2024 3 1) (mkdate 2024 3 31))).
Defined.

(** X25 -- rank order under the contract of the sort: for every sort that
    rearranges the rows with the key non-increasing, the rank order lists
    every agent of the table once and is non-increasing in the summed
    viewings of the period; under a sort that is moreover stable, agents of
    equal sum appear alphabetically.  What the default [kind] does with
    rows of equal key is not decided here. *)
Theorem rank_order_sorted (sort_values : list agg.row -> list agg.row)
    (df : list WeeklyMetric) (start_date end_date : date) :
  sort_contract sort_values ->
  agent_order sort_values df start_date end_date ≡ₚ all_agents df /\
  rank_non_increasing (agent_order sort_values df start_date end_date)
                      (period_sum total_viewings df start_date end_date) /\
  (sort_stable sort_values ->
   rank_order_claim sort_values df start_date end_date).
Proof.
  intros Hsort. split; [by apply agent_order_perm|].
  split; [by apply agent_order_non_increasing|].
  intros Hstable. split; [by apply agent_order_non_increasing|].
  by apply stable_order_ties.
Qed.

Lemma rank_order_sorted_witness :
  agent_order stable_sort two_months_df (mkdate 2024 1 1) (mkdate 2024 1 31) =
    ["A"; "B"] /\
  agent_order stable_sort tied_df (mkdate 2024 1 1) (mkdate 2024 1 7) =
    ["A"; "B"] /\
  rank_order_claim stable_sort tied_df (mkdate 2024 1 1) (mkdate 2024 1 7).
Proof.
  split; [vm_compute; reflexivity|]. split; [vm_compute; reflexivity|].
  apply (rank_order_sorted stable_sort tied_df (mkdate 2024 1 1) (mkdate 2024 1 7)
           insertion_sort_desc_contract).
  exact stable_sort_stable.
Defined.

Lemma period_df_inverted (df : list WeeklyMetric) (s e : date) :
  date_lt e s -> period_df df s e = [].
Proof.
  unfold date_lt. intros Hlt. unfold period_df. apply filter_no_match.
  intros r _ Hr. apply Is_true_true, andb_true_iff in Hr as [H1 H2].
  by rewrite (date_leb_trans _ _ _ H1 H2) in Hlt.
Qed.

(** C5 -- inverted custom range: with [start_date] after [end_date] the
    selector still resolves, to the two dates as given; no row passes the
    period filter; [agg_df] lists every agent of the table with both sums
    equal to zero; the page is rendered. *)
Theorem inverted_range_zero_fill (sort_values : list agg.row -> list agg.row)
    (df : list WeeklyMetric) (start_date end_date : date) (selected_agent : string) :
  date_lt end_date start_date ->
  resolve_period (Custom_range start_date end_date) = Some (start_date, end_date) /\
  period_df df start_date end_date = [] /\
  agg_df df start_date end_date = (fun a => agg.mkrow a 0 0) <$> all_agents df /\
  dashboard sort_values df (Custom_range start_date end_date) selected_agent =
    Some (render sort_values df start_date end_date selected_agent).
Proof.
  intros Hlt. split; [done|]. split; [by apply period_df_inverted|].
  split; [|done].
  rewrite agg_df_rows. apply list_fmap_ext. intros _ a _.
  unfold period_sum. by rewrite period_df_inverted.
Qed.

Lemma inverted_range_zero_fill_witness :
  date_lt (mkdate 2024 3 1) (mkdate 2024 3 10) /\
  agg_df two_months_df (mkdate 2024 3 10) (mkdate 2024 3 1) =
    [agg.mkrow "A" 0 0; agg.mkrow "B" 0 0].
Proof.
  split; [reflexivity|].
  destruct (inverted_range_zero_fill stable_sort two_months_df
              (mkdate 2024 3 10) (mkdate 2024 3 1) "A" eq_refl)
    as (_ & _ & Hagg & _).
  rewrite Hagg. vm_compute. reflexivity.
Defined.

(** ** The query *)

Lemma count_distinct_nonneg `{EqDecision A} (es : list (option A)) :
  0 <= count_distinct es.
Proof. unfold count_distinct. lia. Qed.

Lemma count_distinct_mono `{EqDecision A} (es1 es2 : list (option A)) :
  (forall x, Some x ∈ es1 -> Some x ∈ es2) ->
  count_distinct es1 <= count_distinct es2.
Proof.
  intros Hsub. unfold count_distinct.
  apply Nat2Z.inj_le, submseteq_length, NoDup_submseteq.
  - apply NoDup_remove_dups.
  - intros x. rewrite !elem_of_remove_dups, !list_elem_of_omap.
    intros ([y|] & Hy & Hx); simplify_eq/=. exists (Some x). eauto.
Qed.

Lemma weekly_group_counts (joined : list (cleaned_viewing * option prospects.row))
    (k : string * date) :
  let w := weekly_group joined k in
  0 <= w_applications w <= w_total_viewings w /\
  0 <= w_tenants w <= w_total_viewings w.
Proof.
  unfold weekly_group; simpl.
  split; (split; [apply count_distinct_nonneg|]); apply count_distinct_mono;
    intros x; rewrite !list_elem_of_fmap; intros (j & Hx & Hj);
    exists j; (split; [|done]); f_equal.
  - unfold case_applied in Hx. destruct (_ ≫= _); by simplify_eq.
  - unfold case_current in Hx. destruct j.2; [|done].
    destruct (decide _); by simplify_eq.
Qed.

Lemma pow10_pos (s : nat) : 0 < pow10 s.
Proof. unfold pow10. apply Z.pow_pos_nonneg; lia. Qed.

Lemma div_round_half_away_bounds (num den k : Z) :
  0 <= num -> 0 < den -> 0 <= k -> num <= k * den ->
  0 <= div_round_half_away num den <= k.
Proof.
  intros Hnum Hden Hk Hle. unfold div_round_half_away.
  replace (num <? 0) with false by (symmetry; apply Z.ltb_ge; lia).
  replace (den <? 0) with false by (symmetry; apply Z.ltb_ge; lia).
  simpl. rewrite !Z.abs_eq by lia. split.
  - apply Z.div_pos; lia.
  - apply Z.lt_succ_r, Z.div_lt_upper_bound; lia.
Qed.

Section rate.
Variable select_div_scale : numeric -> numeric -> nat.

Lemma rate_None (a b : Z) : rate select_div_scale a b = None <-> b = 0.
Proof.
  unfold rate, NULLIF. destruct (Z.eqb_spec b 0); simpl; split; done.
Qed.

(** A ratio of [a] to [b] of at most [k] gives a rate of at most
    [100 * k]. *)
Lemma rate_bounds (a b k : Z) (x : numeric) :
  rate select_div_scale a b = Some x ->
  0 <= a -> 0 <= b -> 0 <= k -> a <= k * b ->
  numeric_le (numeric_of_int 0) x /\ numeric_le x (numeric_of_int (100 * k)).
Proof.
  unfold rate, NULLIF. destruct (Z.eqb_spec b 0) as [|Hb]; [done|]. simpl.
  intros [= <-] Ha Hb0 Hk Hle.
  set (rs := select_div_scale _ _).
  unfold numeric_div, numeric_mul, numeric_of_int. simpl.
  change (pow10 0) with 1. rewrite !Z.mul_1_r.
  pose proof (pow10_pos rs) as Hrs.
  destruct (div_round_half_away_bounds (a * pow10 rs) b (k * pow10 rs))
    as [Hq0 Hq1]; [nia..|].
  set (q := div_round_half_away _ _) in *.
  unfold numeric_round, numeric_le. simpl.
  replace (rs + 0)%nat with rs by lia.
  change (pow10 0) with 1. change (pow10 1) with 10.
  destruct (rs <=? 1)%nat eqn:Hcmp; simpl.
  - apply Nat.leb_le in Hcmp.
    assert (rs = 0%nat \/ rs = 1%nat) as [->| ->] by lia; simpl;
      change (pow10 0) with 1 in *; change (pow10 1) with 10 in *; lia.
  - apply Nat.leb_gt in Hcmp.
    pose proof (pow10_pos (rs - 1)) as Hp.
    assert (Hsplit : pow10 rs = 10 * pow10 (rs - 1)).
    { unfold pow10. replace (Z.of_nat rs) with (1 + Z.of_nat (rs - 1)) by lia.
      rewrite Z.pow_add_r by lia. done. }
    destruct (div_round_half_away_bounds (q * 100) (pow10 (rs - 1)) (1000 * k))
      as [Hr0 Hr1]; [nia..|]. change (pow10 1) with 10. lia.
Qed.
End rate.

Section loader_rows.
Variable TO_DATE : string -> option date.
Variable select_div_scale : numeric -> numeric -> nat.
Variable collate_leb : string -> string -> bool.

(** Every row of the loaded table is the [SELECT] list applied to one
    group of the joined viewings. *)
Lemma load_weekly_data_row (vs : list viewings.row) (ps : list prospects.row)
    (df : list WeeklyMetric) (r : WeeklyMetric) :
  load_weekly_data TO_DATE select_div_scale collate_leb vs ps = Some df ->
  r ∈ df ->
  exists joined k, select_row select_div_scale (weekly_group joined k) = Some r.
Proof.
  unfold load_weekly_data. intros Hload Hr.
  destruct (cleaned_viewings TO_DATE vs) as [cleaned|]; [|done]. simpl in Hload.
  destruct (mapM _ _) as [rows|] eqn:Hrows; [|done]. simpl in Hload.
  injection Hload as <-. rewrite merge_sort_Permutation in Hr.
  apply mapM_Some in Hrows.
  apply list_elem_of_lookup_1 in Hr as [i Hi].
  destruct (Forall2_lookup_r _ _ _ _ _ Hrows Hi) as (w & Hw & Hsel).
  apply list_elem_of_lookup_2 in Hw.
  unfold weekly in Hw. apply list_elem_of_fmap in Hw as (k & -> & _).
  eauto.
Qed.

Lemma select_row_fields (w : weekly_row) (r : WeeklyMetric) :
  select_row select_div_scale w = Some r ->
  total_viewings r = w_total_viewings w /\
  applications r = w_applications w /\
  tenants r = w_tenants w /\
  view_to_app_rate r = rate select_div_scale (applications r) (total_viewings r) /\
  app_to_tenant_rate r = rate select_div_scale (tenants r) (applications r) /\
  total_conversion_rate r = rate select_div_scale (tenants r) (total_viewings r).
Proof.
  unfold select_row. destruct (add_days _ _); [|done]. by intros [= <-].
Qed.
End loader_rows.

(** C1, counterexample: three viewers in a week, one application, two
    current tenants who never applied: [app_to_tenant_rate] is 200.0. *)
Lemma app_to_tenant_rate_above_100 :
  pg_load_weekly_data sample_viewings sample_prospects = Some [sample_metric] /\
  app_to_tenant_rate sample_metric = Some (mknumeric 2000 1) /\
  ~ weekly_rates_claim sample_metric.
Proof.
  split; [vm_compute; reflexivity|]. split; [reflexivity|].
  intros (_ & H & _). destruct (H _ eq_refl) as [_ Hle].
  vm_compute in Hle. by apply Hle.
Qed.

(** C1, as amended -- weekly rates: in every row the loader returns, a
    rate is NULL exactly when its denominator is zero; [view_to_app_rate]
    and [total_conversion_rate] are NULL or between 0 and 100;
    [app_to_tenant_rate] is NULL or non-negative, and at most 100 when the
    row has no more tenants than applications. *)
Theorem weekly_rates (TO_DATE : string -> option date)
    (select_div_scale : numeric -> numeric -> nat)
    (collate_leb : string -> string -> bool)
    (vs : list viewings.row) (ps : list prospects.row)
    (df : list WeeklyMetric) (r : WeeklyMetric) :
  load_weekly_data TO_DATE select_div_scale collate_leb vs ps = Some df ->
  r ∈ df ->
  null_iff_zero_denominator r /\
  null_or_percent (view_to_app_rate r) /\
  null_or_percent (total_conversion_rate r) /\
  (forall x, app_to_tenant_rate r = Some x ->
     numeric_le (numeric_of_int 0) x /\
     (tenants r <= applications r -> numeric_le x (numeric_of_int 100))).
Proof.
  intros Hload Hr.
  destruct (load_weekly_data_row _ _ _ _ _ _ _ Hload Hr) as (joined & k & Hsel).
  destruct (weekly_group_counts joined k) as [Happ Hten].
  apply select_row_fields in Hsel as (Hv & Ha & Ht & Hr1 & Hr2 & Hr3).
  rewrite <- Hv, <- Ha in Happ. rewrite <- Hv, <- Ht in Hten.
  unfold null_iff_zero_denominator, null_or_percent, in_percent_range.
  rewrite Hr1, Hr2, Hr3. clear Hv Ha Ht Hr1 Hr2 Hr3.
  split; [|split; [|split]].
  - by rewrite !rate_None.
  - intros x Hx. eapply (rate_bounds _ _ _ 1) in Hx; [done|lia..].
  - intros x Hx. eapply (rate_bounds _ _ _ 1) in Hx; [done|lia..].
  - intros x Hx. split.
    + eapply (rate_bounds _ _ _ (tenants r)) in Hx; [by destruct Hx|try lia..].
      destruct (decide (applications r = 0)) as [H0|H0].
      * apply (rate_None select_div_scale (tenants r)) in H0. by rewrite H0 in Hx.
      * nia.
    + intros Hle. eapply (rate_bounds _ _ _ 1) in Hx; [by destruct Hx|lia..].
Qed.

Lemma weekly_rates_witness :
  pg_load_weekly_data sample_viewings sample_prospects = Some [sample_metric] /\
  null_iff_zero_denominator sample_metric /\
  null_or_percent (view_to_app_rate sample_metric).
Proof.
  assert (Hload : pg_load_weekly_data sample_viewings sample_prospects
                  = Some [sample_metric]) by (vm_compute; reflexivity).
  split; [exact Hload|].
  destruct (weekly_rates _ _ _ _ _ _ sample_metric Hload) as (H1 & H2 & _);
    [by left|]. by split.
Defined.

(** C10 -- counts: in every row the loader returns, the applications and
    the tenants are counted among the viewers, so neither exceeds
    [total_viewings], with no assumption on the data; the tenants are not
    counted among the applicants, and a row can have more tenants than
    applications. *)
Theorem counts_bounded_by_viewings :
  (forall (TO_DATE : string -> option date)
          (select_div_scale : numeric -> numeric -> nat)
          (collate_leb : string -> string -> bool)
          (vs : list viewings.row) (ps : list prospects.row)
          (df : list WeeklyMetric) (r : WeeklyMetric),
     load_weekly_data TO_DATE select_div_scale collate_leb vs ps = Some df ->
     r ∈ df ->
     0 <= applications r <= total_viewings r /\
     0 <= tenants r <= total_viewings r) /\
  (exists (vs : list viewings.row) (ps : list prospects.row) (r : WeeklyMetric),
     pg_load_weekly_data vs ps = Some [r] /\ applications r < tenants r).
Proof.
  split.
  - intros TO_DATE sds coll vs ps df r Hload Hr.
    destruct (load_weekly_data_row _ _ _ _ _ _ _ Hload Hr) as (joined & k & Hsel).
    destruct (weekly_group_counts joined k) as [Happ Hten].
    apply select_row_fields in Hsel as (Hv & Ha & Ht & _).
    by rewrite Hv, Ha, Ht.
  - exists sample_viewings, sample_prospects, sample_metric.
    split; [vm_compute; reflexivity|]. simpl. lia.
Qed.

Lemma counts_bounded_by_viewings_witness :
  pg_load_weekly_data sample_viewings sample_prospects = Some [sample_metric] /\
  0 <= applications sample_metric <= total_viewings sample_metric /\
  0 <= tenants sample_metric <= total_viewings sample_metric.
Proof.
  assert (Hload : pg_load_weekly_data sample_viewings sample_prospects
                  = Some [sample_metric]) by (vm_compute; reflexivity).
  split; [exact Hload|].
  apply (proj1 counts_bounded_by_viewings _ _ _ _ _ _ sample_metric Hload).
  by left.
Defined.

(** ** The performance summary *)

Lemma date_leb_total (a b : date) : date_leb a b = false -> date_leb b a = true.
Proof.
  unfold date_leb.
  rewrite !orb_false_iff, !andb_false_iff, !orb_false_iff, !andb_false_iff,
    !orb_true_iff, !andb_true_iff, !orb_true_iff, !andb_true_iff,
    !Z.ltb_lt, !Z.ltb_ge, !Z.eqb_eq, !Z.eqb_neq, !Z.leb_le, !Z.leb_gt. lia.
Qed.

Lemma date_min_spec (a b : date) :
  (date_min a b = a \/ date_min a b = b) /\
  date_le (date_min a b) a /\ date_le (date_min a b) b.
Proof.
  unfold date_min, date_le. destruct (date_leb a b) eqn:Hcmp.
  - split; [by left|]. split; [apply date_leb_refl|done].
  - split; [by right|]. split; [by apply date_leb_total|apply date_leb_refl].
Qed.

Lemma date_max_spec (a b : date) :
  (date_max a b = a \/ date_max a b = b) /\
  date_le a (date_max a b) /\ date_le b (date_max a b).
Proof.
  unfold date_max, date_le. destruct (date_leb a b) eqn:Hcmp.
  - split; [by right|]. split; [done|apply date_leb_refl].
  - split; [by left|]. split; [apply date_leb_refl|by apply date_leb_total].
Qed.

(** [Series.min()] returns a date of the column that no other precedes. *)
Lemma dates_min_spec (l : list date) (m : date) :
  dates_min l = Some m -> m ∈ l /\ forall d, d ∈ l -> date_le m d.
Proof.
  destruct l as [|d0 l]; [done|]. simpl. intros [= <-].
  induction l as [|d l [IHin IHle]]; simpl.
  - split; [by left|]. intros d ->%list_elem_of_singleton. apply date_leb_refl.
  - destruct (date_min_spec d (foldr date_min d0 l)) as (Hcase & Hd & HM).
    split.
    + destruct Hcase as [-> | ->]; [right; by left|].
      apply elem_of_cons in IHin as [->|?]; [by left|by do 2 right].
    + intros d' Hd'. apply elem_of_cons in Hd' as [->|Hd'].
      * exact (date_leb_trans _ _ _ HM (IHle d0 ltac:(by left))).
      * apply elem_of_cons in Hd' as [->|Hd']; [done|].
        exact (date_leb_trans _ _ _ HM (IHle d' ltac:(by right))).
Qed.

(** [Series.max()] returns a date of the column that no other follows. *)
Lemma dates_max_spec (l : list date) (m : date) :
  dates_max l = Some m -> m ∈ l /\ forall d, d ∈ l -> date_le d m.
Proof.
  destruct l as [|d0 l]; [done|]. simpl. intros [= <-].
  induction l as [|d l [IHin IHle]]; simpl.
  - split; [by left|]. intros d ->%list_elem_of_singleton. apply date_leb_refl.
  - destruct (date_max_spec d (foldr date_max d0 l)) as (Hcase & Hd & HM).
    split.
    + destruct Hcase as [-> | ->]; [right; by left|].
      apply elem_of_cons in IHin as [->|?]; [by left|by do 2 right].
    + intros d' Hd'. apply elem_of_cons in Hd' as [->|Hd'].
      * exact (date_leb_trans _ _ _ (IHle d0 ltac:(by left)) HM).
      * apply elem_of_cons in Hd' as [->|Hd']; [done|].
        exact (date_leb_trans _ _ _ (IHle d' ltac:(by right)) HM).
Qed.

(** C2 -- worked example: for the two weekly rows of agent "A" (2024-01-01
    with 10 viewings, 5 applications, 2 tenants; 2024-01-08 with 8, 4, 4),
    whatever their other columns, the summary of "A" has 18 viewings, 9
    applications, 6 tenants, app_rate 50.0, tenant_rate 66.7 and
    overall_conv 33.3. *)
Theorem summary_example (we1 we2 : date) (a1 b1 c1 a2 b2 c2 : option numeric) :
  let df := [mkWeeklyMetric "A" (mkdate 2024 1 1) we1 10 5 2 a1 b1 c1;
             mkWeeklyMetric "A" (mkdate 2024 1 8) we2 8 4 4 a2 b2 c2] in
  let s := performance_summary df "A" in
  summary.total_viewings s = 18 /\
  summary.total_apps s = 9 /\
  summary.total_tenants s = 6 /\
  summary.app_rate s = PyFloat 50.0 /\
  summary.tenant_rate s = PyFloat 66.7 /\
  summary.overall_conv s = PyFloat 33.3.
Proof.
  cbv zeta. unfold performance_summary.
  rewrite !filter_cons, !decide_True by done. simpl summary.total_viewings.
  simpl summary.total_apps. simpl summary.total_tenants.
  simpl summary.app_rate. simpl summary.tenant_rate. simpl summary.overall_conv.
  repeat split; vm_compute; reflexivity.
Qed.

(** C6 -- zero denominators in the summary: when the agent's viewings sum
    to zero, [app_rate] and [overall_conv] are the integer 0; when the
    applications sum to zero, [tenant_rate] is the integer 0. *)
Theorem summary_zero_denominator (df : list WeeklyMetric) (selected_agent : string) :
  let s := performance_summary df selected_agent in
  (summary.total_viewings s = 0 ->
   summary.app_rate s = PyInt 0 /\ summary.overall_conv s = PyInt 0) /\
  (summary.total_apps s = 0 -> summary.tenant_rate s = PyInt 0).
Proof.
  cbv zeta. unfold performance_summary. simpl.
  split; intros ->; by unfold rounded_percent.
Qed.

Lemma summary_zero_denominator_witness :
  summary.total_viewings (performance_summary two_months_df "B") = 0 /\
  summary.app_rate (performance_summary two_months_df "B") = PyInt 0 /\
  summary.overall_conv (performance_summary two_months_df "B") = PyInt 0.
Proof.
  split; [reflexivity|].
  exact (proj1 (summary_zero_denominator two_months_df "B") eq_refl).
Defined.

(** C9 -- the summary ignores the period: for one table and one agent, the
    pages rendered for any two resolved periods carry the same summary,
    which is the summary of the agent's rows of the whole table (sums,
    rates, earliest [week_start], latest [week_end]); the same holds for
    the pages of any two runs of the script that get past the selector.
    The ranking does depend on the period: its sum for an agent can differ
    from the summary's total. *)
Theorem summary_ignores_period (sort_values : list agg.row -> list agg.row)
    (df : list WeeklyMetric) (selected_agent : string) :
  (forall s1 e1 s2 e2 : date,
     narrative (render sort_values df s1 e1 selected_agent) =
     narrative (render sort_values df s2 e2 selected_agent)) /\
  (forall (m1 m2 : view_mode) (p1 p2 : page),
     dashboard sort_values df m1 selected_agent = Some p1 ->
     dashboard sort_values df m2 selected_agent = Some p2 ->
     narrative p1 = narrative p2) /\
  (forall s e : date,
     let rows := filter (fun r => agent r = selected_agent) df in
     let n := narrative (render sort_values df s e selected_agent) in
     summary.total_viewings n = col_sum total_viewings rows /\
     summary.total_apps n = col_sum applications rows /\
     summary.total_tenants n = col_sum tenants rows /\
     summary.period_start n = dates_min (week_start <$> rows) /\
     summary.period_end n = dates_max (week_end <$> rows)) /\
  (exists (df' : list WeeklyMetric) (a : string) (s e : date),
     period_sum total_viewings df' s e a ≠
     summary.total_viewings (narrative (render sort_values df' s e a))).
Proof.
  split; [done|]. split.
  - intros m1 m2 p1 p2 H1 H2. unfold dashboard in *.
    destruct (resolve_period m1) as [[s1 e1]|]; [|done].
    destruct (resolve_period m2) as [[s2 e2]|]; [|done].
    simpl in *. by simplify_eq.
  - split; [done|].
    exists two_months_df, "A", (mkdate 2024 3 1), (mkdate 2024 3 31).
    vm_compute. discriminate.
Qed.

Lemma summary_ignores_period_witness :
  exists p1 p2 : page,
    dashboard stable_sort two_months_df (Week (mkdate 2024 1 3)) "A" = Some p1 /\
    dashboard stable_sort two_months_df (Month (mkdate 2024 3 15)) "A" = Some p2 /\
    ranking_bars p1 ≠ ranking_bars p2 /\
    narrative p1 = narrative p2.
Proof.
  eexists _, _. split; [reflexivity|]. split; [reflexivity|].
  split; [vm_compute; discriminate|].
  apply (proj1 (proj2 (summary_ignores_period stable_sort two_months_df "A"))
           (Week (mkdate 2024 1 3)) (Month (mkdate 2024 3 15)));
    reflexivity.
Defined.

(** * Further properties *)

(** ** Dates: fields against ordinals *)

Lemma dby_step (y : Z) :
  _days_before_year (y + 1) =
  _days_before_year y + 365 + (if _is_leap y then 1 else 0).
Proof.
  unfold _days_before_year, _is_leap. cbv zeta.
  replace (y + 1 - 1) with y by lia.
  assert (H4 : y / 4 = (y - 1) / 4 + (if y mod 4 =? 0 then 1 else 0)).
  { destruct (Z.eqb_spec (y mod 4) 0); Z.div_mod_to_equations; lia. }
  assert (H100 : y / 100 = (y - 1) / 100 + (if y mod 100 =? 0 then 1 else 0)).
  { destruct (Z.eqb_spec (y mod 100) 0); Z.div_mod_to_equations; lia. }
  assert (H400 : y / 400 = (y - 1) / 400 + (if y mod 400 =? 0 then 1 else 0)).
  { destruct (Z.eqb_spec (y mod 400) 0); Z.div_mod_to_equations; lia. }
  rewrite H4, H100, H400.
  assert (H100_4 : y mod 100 = 0 -> y mod 4 = 0).
  { intros H. rewrite <- (Z.mod_mod_divide y 100 4) by (exists 25; lia). by rewrite H. }
  assert (H400_100 : y mod 400 = 0 -> y mod 100 = 0).
  { intros H. rewrite <- (Z.mod_mod_divide y 400 100) by (exists 4; lia). by rewrite H. }
  destruct (Z.eqb_spec (y mod 4) 0), (Z.eqb_spec (y mod 100) 0),
    (Z.eqb_spec (y mod 400) 0); simpl; lia.
Qed.

Lemma dby_add (y k : Z) :
  0 <= k -> _days_before_year y + 365 * k <= _days_before_year (y + k).
Proof.
  revert k. apply natlike_ind; cbv beta.
  - replace (y + 0) with y by lia. lia.
  - intros k Hk IH. replace (y + Z.succ k) with (y + k + 1) by lia.
    rewrite dby_step. destruct (_is_leap _); lia.
Qed.

Lemma dby_mono (y1 y2 : Z) :
  y1 <= y2 -> _days_before_year y1 + 365 * (y2 - y1) <= _days_before_year y2.
Proof.
  intros Hle. pose proof (dby_add y1 (y2 - y1) ltac:(lia)) as H.
  by replace (y1 + (y2 - y1)) with y2 in H by lia.
Qed.

(** The days of a year up to a valid month and day stay inside the year. *)
Lemma day_of_year_bounds (y m d : Z) :
  1 <= m <= 12 -> 1 <= d <= _days_in_month y m ->
  1 <= _days_before_month y m + d <= 365 + (if _is_leap y then 1 else 0).
Proof.
  unfold _days_before_month, _days_in_month. intros Hm Hd.
  assert (m = 1 \/ m = 2 \/ m = 3 \/ m = 4 \/ m = 5 \/ m = 6 \/ m = 7 \/
          m = 8 \/ m = 9 \/ m = 10 \/ m = 11 \/ m = 12) as Hcases by lia.
  destruct (_is_leap y);
    repeat (destruct Hcases as [-> | Hcases]; [simpl in *; lia|]);
    subst; simpl in *; lia.
Qed.

Lemma month_start_mono (y m1 m2 d : Z) :
  1 <= m1 -> m1 < m2 -> m2 <= 12 -> 1 <= d <= _days_in_month y m1 ->
  _days_before_month y m1 + d <= _days_before_month y m2.
Proof.
  unfold _days_before_month, _days_in_month. intros H1 H12 H2 Hd.
  assert (m1 = 1 \/ m1 = 2 \/ m1 = 3 \/ m1 = 4 \/ m1 = 5 \/ m1 = 6 \/ m1 = 7 \/
          m1 = 8 \/ m1 = 9 \/ m1 = 10 \/ m1 = 11) as Hc1 by lia.
  assert (m2 = 2 \/ m2 = 3 \/ m2 = 4 \/ m2 = 5 \/ m2 = 6 \/ m2 = 7 \/
          m2 = 8 \/ m2 = 9 \/ m2 = 10 \/ m2 = 11 \/ m2 = 12) as Hc2 by lia.
  destruct (_is_leap y);
    repeat (destruct Hc1 as [-> | Hc1]); subst;
    repeat (destruct Hc2 as [-> | Hc2]); subst; simpl in *; lia.
Qed.

(** On valid dates the order of the field triples is the order of the
    ordinals. *)
Lemma toordinal_lt (a b : date) :
  valid_date a -> valid_date b -> date_leb b a = false -> toordinal a < toordinal b.
Proof.
  unfold valid_date, MINYEAR, MAXYEAR, date_leb, toordinal, _ymd2ord.
  intros (Hya & Hma & Hda) (Hyb & Hmb & Hdb).
  rewrite !orb_false_iff, !andb_false_iff, !orb_false_iff, !andb_false_iff,
    !Z.ltb_ge, !Z.eqb_neq, !Z.leb_gt.
  intros Hlt.
  pose proof (day_of_year_bounds _ _ _ Hma Hda) as Ba.
  pose proof (day_of_year_bounds _ _ _ Hmb Hdb) as Bb.
  destruct (Z.lt_trichotomy (year a) (year b)) as [Hy|[Hy|Hy]]; [| |lia].
  - pose proof (dby_mono (year a + 1) (year b) ltac:(lia)) as Hm.
    rewrite dby_step in Hm. destruct (_is_leap (year a)); lia.
  - rewrite Hy in *.
    destruct (Z.lt_trichotomy (month a) (month b)) as [Hmo|[Hmo|Hmo]]; [| |lia].
    + pose proof (month_start_mono (year b) (month a) (month b) (day a)
                    ltac:(lia) Hmo ltac:(lia) Hda). lia.
    + rewrite Hmo in *. lia.
Qed.

Lemma toordinal_le (a b : date) :
  valid_date a -> valid_date b -> (date_le a b <-> toordinal a <= toordinal b).
Proof.
  intros Ha Hb. unfold date_le. split.
  - intros Hle. destruct (date_leb b a) eqn:Hba.
    + assert (a = b) as ->; [|lia].
      revert Hle Hba. unfold date_leb. destruct a, b; simpl.
      rewrite !orb_true_iff, !andb_true_iff, !orb_true_iff, !andb_true_iff,
        !Z.ltb_lt, !Z.eqb_eq, !Z.leb_le. intros; f_equal; lia.
    + pose proof (toordinal_lt a b Ha Hb Hba). lia.
  - intros Hle. destruct (date_leb a b) eqn:Hab; [done|].
    pose proof (toordinal_lt b a Hb Ha Hab). lia.
Qed.

Lemma toordinal_inj (a b : date) :
  valid_date a -> valid_date b -> toordinal a = toordinal b -> a = b.
Proof.
  intros Ha Hb Heq.
  destruct (date_leb a b) eqn:Hab; [|pose proof (toordinal_lt b a Hb Ha Hab); lia].
  destruct (date_leb b a) eqn:Hba; [|pose proof (toordinal_lt a b Ha Hb Hba); lia].
  revert Hab Hba. unfold date_leb. destruct a, b; simpl.
  rewrite !orb_true_iff, !andb_true_iff, !orb_true_iff, !andb_true_iff,
    !Z.ltb_lt, !Z.eqb_eq, !Z.leb_le. intros; f_equal; lia.
Qed.

Lemma toordinal_max (d : date) : valid_date d -> toordinal d <= _MAXORDINAL.
Proof.
  intros Hd. change _MAXORDINAL with (toordinal (mkdate 9999 12 31)).
  apply toordinal_le; [done|vm_compute; intuition discriminate|].
  destruct Hd as ((_ & Hy) & (_ & Hm) & (_ & Hday)). unfold MAXYEAR in Hy.
  pose proof (_days_in_month_bounds (year d) (month d)).
  unfold date_le, date_leb. simpl.
  rewrite !orb_true_iff, !andb_true_iff, !orb_true_iff, !andb_true_iff,
    !Z.ltb_lt, !Z.eqb_eq, !Z.leb_le. lia.
Qed.

(** [fromordinal] undoes [toordinal] on every date. *)
Lemma toordinal_fromordinal (d : date) :
  valid_date d -> fromordinal (toordinal d) = d.
Proof.
  intros Hd.
  destruct (fromordinal_toordinal (toordinal d)) as [Hv Ho].
  { split; [by apply toordinal_pos|by apply toordinal_max]. }
  by apply toordinal_inj.
Qed.

(** ** More on the query *)

Lemma date_trunc_week_spec (d : date) :
  valid_date d ->
  valid_date (date_trunc_week d) /\
  weekday (date_trunc_week d) = 0 /\
  toordinal (date_trunc_week d) <= toordinal d <= toordinal (date_trunc_week d) + 6.
Proof.
  intros Hd. pose proof (toordinal_pos d Hd) as Hpos.
  pose proof (toordinal_max d Hd) as Hmax.
  unfold date_trunc_week, weekday.
  set (o := toordinal d) in *.
  assert (Hn : 1 <= o - (o + 6) mod 7 <= _MAXORDINAL).
  { pose proof (Z.mod_pos_bound (o + 6) 7 ltac:(lia)).
    pose proof (Z.div_mod (o + 6) 7 ltac:(lia)).
    assert (1 <= (o + 6) / 7) by (apply Z.div_le_lower_bound; lia). lia. }
  destruct (fromordinal_toordinal _ Hn) as [Hv Ho].
  split; [done|]. rewrite Ho.
  pose proof (Z.mod_pos_bound (o + 6) 7 ltac:(lia)) as Hb.
  split; [|lia].
  replace (o - (o + 6) mod 7 + 6) with (7 * ((o + 6) / 7))
    by (pose proof (Z.div_mod (o + 6) 7 ltac:(lia)); lia).
  by rewrite Z.mul_comm, Z.mod_mul by lia.
Qed.

Lemma elem_of_left_join (cs : list cleaned_viewing) (ps : list prospects.row)
    (j : cleaned_viewing * option prospects.row) :
  j ∈ left_join cs ps -> j.1 ∈ cs.
Proof.
  unfold left_join. rewrite list_elem_of_bind. intros (v & Hj & Hv).
  destruct (filter _ ps) as [|p l].
  - apply list_elem_of_singleton in Hj as ->. done.
  - apply list_elem_of_fmap in Hj as (q & -> & _). done.
Qed.

Lemma left_join_covers (cs : list cleaned_viewing) (ps : list prospects.row)
    (v : cleaned_viewing) :
  v ∈ cs -> exists o, (v, o) ∈ left_join cs ps.
Proof.
  intros Hv. unfold left_join.
  destruct (filter (fun p => cv_personId v = prospects.personId p) ps)
    as [|p l] eqn:Hf.
  - exists None. apply list_elem_of_bind. exists v. rewrite Hf. split; [by left|done].
  - exists (Some p). apply list_elem_of_bind. exists v. rewrite Hf.
    split; [by left|done].
Qed.

Lemma add_days_inv (d d' : date) (k : Z) :
  add_days d k = Some d' ->
  1 <= toordinal d + k <= _MAXORDINAL /\ valid_date d' /\
  toordinal d' = toordinal d + k.
Proof.
  unfold add_days. cbv zeta.
  destruct (Z.ltb_spec 0 (toordinal d + k)); [|done].
  destruct (Z.leb_spec (toordinal d + k) _MAXORDINAL); [|done].
  simpl. intros [= <-].
  split; [lia|]. apply fromordinal_toordinal. lia.
Qed.

Section loader_more.
Variable TO_DATE : string -> option date.
Variable select_div_scale : numeric -> numeric -> nat.
Variable collate_leb : string -> string -> bool.

(** The viewings the query keeps: those with a person identifier. *)
Lemma elem_of_cleaned_viewings (vs : list viewings.row)
    (cs : list cleaned_viewing) (c : cleaned_viewing) :
  cleaned_viewings TO_DATE vs = Some cs ->
  c ∈ cs <->
  exists v, v ∈ vs /\ viewings.personId v = Some (cv_personId c) /\
            viewings.Agent v = cv_Agent c /\
            TO_DATE (viewings.Date v) = Some (viewing_date c).
Proof.
  unfold cleaned_viewings. intros Hcs. apply mapM_Some in Hcs. split.
  - intros Hc. apply list_elem_of_lookup_1 in Hc as [i Hi].
    destruct (Forall2_lookup_r _ _ _ _ _ Hcs Hi) as ([pid v] & Hpv & Hf).
    apply list_elem_of_lookup_2, list_elem_of_omap in Hpv as (v' & Hv' & Hpid).
    destruct (viewings.personId v') as [pid'|] eqn:Hp; [|done].
    simpl in Hpid. injection Hpid as <- <-.
    destruct (TO_DATE (viewings.Date v')) as [d|] eqn:Hd; [|done].
    simpl in Hf. injection Hf as <-. exists v'. by simpl.
  - intros (v & Hv & Hpid & Hag & Hd).
    assert (Hin : (cv_personId c, v) ∈
                  omap (fun v => pid ← viewings.personId v; Some (pid, v)) vs).
    { apply list_elem_of_omap. exists v. split; [done|]. by rewrite Hpid. }
    apply list_elem_of_lookup_1 in Hin as [i Hi].
    destruct (Forall2_lookup_l _ _ _ _ _ Hcs Hi) as (c' & Hc' & Hf).
    rewrite Hd in Hf. simpl in Hf. injection Hf as <-.
    apply list_elem_of_lookup_2 in Hc'. rewrite Hag in Hc'. by destruct c.
Qed.

(** Where a row of the loaded table comes from: a kept viewing of that
    agent dated in that week. *)
Lemma load_weekly_data_origin (vs : list viewings.row) (ps : list prospects.row)
    (df : list WeeklyMetric) (r : WeeklyMetric) :
  load_weekly_data TO_DATE select_div_scale collate_leb vs ps = Some df ->
  r ∈ df ->
  exists cs joined k c,
    cleaned_viewings TO_DATE vs = Some cs /\
    joined = left_join cs ps /\
    c ∈ cs /\ k = (cv_Agent c, date_trunc_week (viewing_date c)) /\
    k ∈ remove_dups (group_key <$> joined) /\
    select_row select_div_scale (weekly_group joined k) = Some r.
Proof.
  unfold load_weekly_data. intros Hload Hr.
  destruct (cleaned_viewings TO_DATE vs) as [cs|]; [|done]. simpl in Hload.
  destruct (mapM _ _) as [rows|] eqn:Hrows; [|done]. simpl in Hload.
  injection Hload as <-. rewrite merge_sort_Permutation in Hr.
  apply mapM_Some in Hrows.
  apply list_elem_of_lookup_1 in Hr as [i Hi].
  destruct (Forall2_lookup_r _ _ _ _ _ Hrows Hi) as (w & Hw & Hsel).
  apply list_elem_of_lookup_2 in Hw.
  unfold weekly in Hw. apply list_elem_of_fmap in Hw as (k & -> & Hk).
  pose proof Hk as Hk'.
  rewrite elem_of_remove_dups, list_elem_of_fmap in Hk'.
  destruct Hk' as (j & -> & Hj).
  exists cs, (left_join cs ps), (group_key j), j.1.
  split; [done|]. split; [done|].
  split; [by eapply elem_of_left_join|]. done.
Qed.

Lemma weekly_group_key (joined : list (cleaned_viewing * option prospects.row))
    (a : string) (d : date) :
  w_agent (weekly_group joined (a, d)) = a /\
  w_week_start (weekly_group joined (a, d)) = d.
Proof. done. Qed.

Lemma select_row_week (w : weekly_row) (r : WeeklyMetric) :
  select_row select_div_scale w = Some r ->
  agent r = w_agent w /\ week_start r = w_week_start w /\
  add_days (w_week_start w) 6 = Some (week_end r).
Proof.
  unfold select_row. destruct (add_days _ _) as [we|]; [|done].
  by intros [= <-].
Qed.

(** X1 -- weeks: with a [TO_DATE] that returns dates, every row of the
    loaded table has a Monday as [week_start], a [week_end] exactly six
    days later, and stands for a kept viewing of its agent that is dated
    inside that week. *)
Theorem loaded_weeks (vs : list viewings.row) (ps : list prospects.row)
    (df : list WeeklyMetric) (r : WeeklyMetric) :
  (forall s d, TO_DATE s = Some d -> valid_date d) ->
  load_weekly_data TO_DATE select_div_scale collate_leb vs ps = Some df ->
  r ∈ df ->
  valid_date (week_start r) /\ weekday (week_start r) = 0 /\
  valid_date (week_end r) /\
  toordinal (week_end r) = toordinal (week_start r) + 6 /\
  exists v d,
    v ∈ vs /\ is_Some (viewings.personId v) /\ viewings.Agent v = agent r /\
    TO_DATE (viewings.Date v) = Some d /\
    date_le (week_start r) d /\ date_le d (week_end r).
Proof.
  intros Hvalid Hload Hr.
  destruct (load_weekly_data_origin _ _ _ _ Hload Hr)
    as (cs & joined & k & c & Hcs & -> & Hc & -> & _ & Hsel).
  apply select_row_week in Hsel as (Hag & Hws & Hwe).
  destruct (weekly_group_key (left_join cs ps) (cv_Agent c)
              (date_trunc_week (viewing_date c))) as [Hka Hkw].
  rewrite Hka in Hag. rewrite Hkw in Hws, Hwe. clear Hka Hkw.
  apply (elem_of_cleaned_viewings _ _ _ Hcs) in Hc as (v & Hv & Hpid & Hagent & Hd).
  pose proof (Hvalid _ _ Hd) as Hvd.
  destruct (date_trunc_week_spec _ Hvd) as (Hvs & Hmon & Hlo & Hhi).
  apply add_days_inv in Hwe as (_ & Hve & Hoe).
  rewrite <- Hws in *.
  split; [done|]. split; [done|]. split; [done|]. split; [done|].
  exists v, (viewing_date c). split; [done|]. split; [by rewrite Hpid|].
  split; [by rewrite Hag|]. split; [done|].
  split; apply toordinal_le; try done; lia.
Qed.

End loader_more.

Lemma to_date_ddmmyyyy_valid (s : string) (d : date) :
  to_date_ddmmyyyy s = Some d -> valid_date d.
Proof.
  unfold to_date_ddmmyyyy.
  destruct (list_ascii_of_string s) as [|d1 l]; [done|].
  do 9 (destruct l as [|? l]; [done|]). destruct l; [|done].
  destruct (_ && _); [|done].
  intros H. repeat (apply bind_Some in H as (? & _ & H)).
  destruct (valid_dateb _) eqn:Hv; [|done].
  injection H as <-. by apply valid_dateb_spec.
Qed.

Lemma loaded_weeks_witness :
  pg_load_weekly_data sample_viewings sample_prospects = Some [sample_metric] /\
  weekday (week_start sample_metric) = 0 /\
  toordinal (week_end sample_metric) = toordinal (week_start sample_metric) + 6.
Proof.
  assert (Hload : pg_load_weekly_data sample_viewings sample_prospects
                  = Some [sample_metric]) by (vm_compute; reflexivity).
  split; [exact Hload|].
  destruct (loaded_weeks _ _ _ sample_viewings sample_prospects [sample_metric]
              sample_metric to_date_ddmmyyyy_valid Hload (list_elem_of_here _ _))
    as (_ & Hmon & _ & Hend & _).
  by split.
Defined.

Lemma count_distinct_pos `{EqDecision A} (es : list (option A)) (x : A) :
  Some x ∈ es -> 1 <= count_distinct es.
Proof.
  intros Hx. unfold count_distinct.
  assert (Hin : x ∈ remove_dups (omap id es)).
  { apply elem_of_remove_dups, list_elem_of_omap. by exists (Some x). }
  destruct (remove_dups _); [by apply elem_of_nil in Hin|]. simpl. lia.
Qed.

Lemma count_distinct_all_None `{EqDecision A} (es : list (option A)) :
  (forall e, e ∈ es -> e = None) -> count_distinct es = 0.
Proof.
  intros Hnone. unfold count_distinct.
  replace (omap id es) with (@nil A); [done|].
  symmetry. induction es as [|e es IH]; [done|].
  simpl. rewrite (Hnone e) by left. simpl. apply IH.
  intros e' He'. apply Hnone. by right.
Qed.

Lemma mapM_fmap_eq {A B C} (f : A -> option B) (g : B -> C) (h : A -> C)
    (l : list A) (k : list B) :
  (forall x y, f x = Some y -> g y = h x) ->
  mapM f l = Some k -> g <$> k = h <$> l.
Proof.
  intros Hgh Hk. apply mapM_Some in Hk.
  induction Hk as [|x y l k Hxy Hk IH]; [done|].
  rewrite !fmap_cons, IH. f_equal. by apply Hgh.
Qed.

Lemma omap_cons_eq {A B} (f : A -> option B) (x : A) (l : list A) :
  omap f (x :: l) = match f x with Some y => y :: omap f l | None => omap f l end.
Proof. done. Qed.

Lemma omap_filter_is_Some {A B} (f : A -> option B) (P : A -> Prop)
    `{forall x, Decision (P x)} (l : list A) :
  (forall x, P x <-> is_Some (f x)) -> omap f (filter P l) = omap f l.
Proof.
  intros HP. induction l as [|x l IH]; [done|].
  destruct (f x) as [y|] eqn:Hf.
  - rewrite filter_cons_True by (apply HP; by rewrite Hf).
    by rewrite !omap_cons_eq, Hf, IH.
  - rewrite filter_cons_False by (rewrite HP, Hf; by intros [? ?]).
    by rewrite omap_cons_eq, Hf.
Qed.

Section loader_rows_more.
Variable TO_DATE : string -> option date.
Variable select_div_scale : numeric -> numeric -> nat.
Variable collate_leb : string -> string -> bool.

Lemma loaded_row_viewers_pos (vs : list viewings.row) (ps : list prospects.row)
    (df : list WeeklyMetric) (r : WeeklyMetric) :
  load_weekly_data TO_DATE select_div_scale collate_leb vs ps = Some df ->
  r ∈ df -> 1 <= total_viewings r.
Proof.
  intros Hload Hr.
  destruct (load_weekly_data_origin _ _ _ _ _ _ _ Hload Hr)
    as (cs & joined & k & c & Hcs & -> & Hc & -> & Hk & Hsel).
  apply select_row_fields in Hsel as (Hv & _).
  rewrite Hv. unfold weekly_group. simpl.
  destruct (left_join_covers cs ps c Hc) as [o Ho].
  apply (count_distinct_pos _ (cv_personId c)).
  apply list_elem_of_fmap. exists (c, o). split; [done|].
  by apply list_elem_of_filter.
Qed.

(** X2 -- no empty group: every row of the loaded table counts at least
    one viewer, so [view_to_app_rate] and [total_conversion_rate] are never
    NULL in it. *)
Theorem loaded_rows_have_viewers (vs : list viewings.row) (ps : list prospects.row)
    (df : list WeeklyMetric) (r : WeeklyMetric) :
  load_weekly_data TO_DATE select_div_scale collate_leb vs ps = Some df ->
  r ∈ df ->
  1 <= total_viewings r /\
  is_Some (view_to_app_rate r) /\ is_Some (total_conversion_rate r).
Proof.
  intros Hload Hr. pose proof (loaded_row_viewers_pos _ _ _ _ Hload Hr) as Hpos.
  destruct (load_weekly_data_row _ _ _ _ _ _ _ Hload Hr) as (joined & k & Hsel).
  apply select_row_fields in Hsel as (_ & _ & _ & Hr1 & _ & Hr3).
  split; [done|]. rewrite Hr1, Hr3.
  split; apply not_eq_None_Some; rewrite rate_None; lia.
Qed.

Lemma loaded_keys_NoDup (vs : list viewings.row) (ps : list prospects.row)
    (df : list WeeklyMetric) :
  load_weekly_data TO_DATE select_div_scale collate_leb vs ps = Some df ->
  NoDup ((fun r => (agent r, week_start r)) <$> df).
Proof.
  unfold load_weekly_data. intros Hload.
  destruct (cleaned_viewings TO_DATE vs) as [cs|]; [|done]. simpl in Hload.
  destruct (mapM _ _) as [rows|] eqn:Hrows; [|done]. simpl in Hload.
  injection Hload as <-. rewrite merge_sort_Permutation.
  assert (Hkeys : (fun r => (agent r, week_start r)) <$> rows =
                  (fun w => (w_agent w, w_week_start w))
                    <$> weekly (left_join cs ps)).
  { apply (mapM_fmap_eq (select_row select_div_scale)); [|done].
    intros w r Hsel. by apply select_row_week in Hsel as (-> & -> & _). }
  rewrite Hkeys. unfold weekly. rewrite <- list_fmap_compose.
  erewrite (list_fmap_ext _ id (remove_dups (group_key <$> left_join cs ps))).
  - rewrite list_fmap_id. apply NoDup_remove_dups.
  - intros _ [a d] _. done.
Qed.

(** X3 -- one row per group: in the loaded table an agent has at most one
    row per week: two positions holding the same [agent] and [week_start]
    are the same position. *)
Theorem loaded_keys_unique (vs : list viewings.row) (ps : list prospects.row)
    (df : list WeeklyMetric) (i j : nat) (r1 r2 : WeeklyMetric) :
  load_weekly_data TO_DATE select_div_scale collate_leb vs ps = Some df ->
  df !! i = Some r1 -> df !! j = Some r2 ->
  agent r1 = agent r2 -> week_start r1 = week_start r2 -> i = j.
Proof.
  intros Hload Hi Hj Ha Hw.
  pose proof (loaded_keys_NoDup _ _ _ Hload) as Hnd.
  apply (NoDup_lookup _ i j (agent r1, week_start r1) Hnd).
  - by rewrite list_lookup_fmap, Hi.
  - by rewrite list_lookup_fmap, Hj, Ha, Hw.
Qed.

(** X4 -- viewings without a person identifier are ignored: dropping them
    from the table changes nothing, whatever their dates look like. *)
Theorem null_person_rows_ignored (vs : list viewings.row) (ps : list prospects.row) :
  load_weekly_data TO_DATE select_div_scale collate_leb vs ps =
  load_weekly_data TO_DATE select_div_scale collate_leb
    (filter (fun v => is_Some (viewings.personId v)) vs) ps.
Proof.
  unfold load_weekly_data, cleaned_viewings.
  rewrite omap_filter_is_Some; [done|]. intros v.
  destruct (viewings.personId v); simpl; split; intros [? ?]; done.
Qed.

Lemma cleaned_viewings_None (vs : list viewings.row) :
  cleaned_viewings TO_DATE vs = None <->
  exists v, v ∈ vs /\ is_Some (viewings.personId v) /\
            TO_DATE (viewings.Date v) = None.
Proof.
  unfold cleaned_viewings. rewrite mapM_None, Exists_exists. split.
  - intros ([pid v] & Hpv & Hd).
    apply list_elem_of_omap in Hpv as (v' & Hv' & Hpid).
    destruct (viewings.personId v') as [pid'|] eqn:Hp; [|done].
    simpl in Hpid. injection Hpid as <- <-.
    exists v'. split; [done|]. split; [by rewrite Hp|].
    by destruct (TO_DATE (viewings.Date v')).
  - intros (v & Hv & [pid Hpid] & Hd). exists (pid, v). split; [|by rewrite Hd].
    apply list_elem_of_omap. exists v. by rewrite Hpid.
Qed.

Lemma select_row_None (w : weekly_row) :
  select_row select_div_scale w = None <-> add_days (w_week_start w) 6 = None.
Proof. unfold select_row. by destruct (add_days _ _). Qed.

Lemma elem_of_weekly (joined : list (cleaned_viewing * option prospects.row))
    (w : weekly_row) :
  w ∈ weekly joined <->
  exists j, j ∈ joined /\
    w = weekly_group joined (cv_Agent j.1, date_trunc_week (viewing_date j.1)).
Proof.
  unfold weekly. rewrite list_elem_of_fmap. split.
  - intros (k & -> & Hk).
    apply elem_of_remove_dups, list_elem_of_fmap in Hk as (j & -> & Hj). eauto.
  - intros (j & Hj & ->). eexists. split; [done|].
    apply elem_of_remove_dups, list_elem_of_fmap. by exists j.
Qed.

Lemma select_rows_None (cs : list cleaned_viewing) (ps : list prospects.row) :
  mapM (select_row select_div_scale) (weekly (left_join cs ps)) = None <->
  exists c, c ∈ cs /\ add_days (date_trunc_week (viewing_date c)) 6 = None.
Proof.
  rewrite mapM_None, Exists_exists. split.
  - intros (w & Hw & Hsel). apply elem_of_weekly in Hw as (j & Hj & ->).
    apply select_row_None in Hsel.
    rewrite (proj2 (weekly_group_key _ _ _)) in Hsel.
    exists j.1. split; [by eapply elem_of_left_join|done].
  - intros (c & Hc & Hadd). destruct (left_join_covers cs ps c Hc) as [o Ho].
    eexists. split; [apply elem_of_weekly; by exists (c, o)|].
    apply select_row_None. by rewrite (proj2 (weekly_group_key _ _ _)).
Qed.

(** X5 -- conversion errors: a viewing with a person identifier whose Date
    [TO_DATE] rejects makes the query fail, whatever the prospects table
    holds; and when [TO_DATE] accepts the Date of every viewing with a
    person identifier, as a date whose week ends within the calendar, the
    query returns a table, whatever the prospects table holds. *)
Theorem rejected_date_fails_query (vs : list viewings.row) :
  ((exists v, v ∈ vs /\ is_Some (viewings.personId v) /\
              TO_DATE (viewings.Date v) = None) ->
   forall ps, load_weekly_data TO_DATE select_div_scale collate_leb vs ps = None) /\
  ((forall v, v ∈ vs -> is_Some (viewings.personId v) ->
      exists d, TO_DATE (viewings.Date v) = Some d /\
                is_Some (add_days (date_trunc_week d) 6)) ->
   forall ps,
     is_Some (load_weekly_data TO_DATE select_div_scale collate_leb vs ps)).
Proof.
  split.
  - intros Hbad ps. apply cleaned_viewings_None in Hbad.
    unfold load_weekly_data. by rewrite Hbad.
  - intros Hok ps. unfold load_weekly_data.
    destruct (cleaned_viewings TO_DATE vs) as [cs|] eqn:Hcs.
    + simpl.
      destruct (mapM (select_row select_div_scale) (weekly (left_join cs ps)))
        as [rows|] eqn:Hrows; [done|].
      apply select_rows_None in Hrows as (c & Hc & Hadd).
      apply (elem_of_cleaned_viewings _ _ _ _ Hcs) in Hc
        as (v & Hv & Hpid & _ & Hd).
      destruct (Hok v Hv) as (d & Hd' & Hsome); [by rewrite Hpid|].
      rewrite Hd in Hd'. injection Hd' as <-.
      rewrite Hadd in Hsome. by destruct Hsome.
    + apply cleaned_viewings_None in Hcs as (v & Hv & Hpid & Hd).
      destruct (Hok v Hv Hpid) as (d & Hd' & _). by rewrite Hd in Hd'.
Qed.

End loader_rows_more.

Lemma loaded_rows_have_viewers_witness :
  pg_load_weekly_data sample_viewings sample_prospects = Some [sample_metric] /\
  1 <= total_viewings sample_metric.
Proof.
  assert (Hload : pg_load_weekly_data sample_viewings sample_prospects
                  = Some [sample_metric]) by (vm_compute; reflexivity).
  split; [exact Hload|].
  apply (loaded_rows_have_viewers _ _ _ sample_viewings sample_prospects
           [sample_metric] sample_metric Hload). by left.
Defined.

Lemma loaded_keys_unique_witness :
  exists df r1 r2,
    pg_load_weekly_data two_week_viewings sample_prospects = Some df /\
    df !! 1%nat = Some r1 /\ df !! 2%nat = Some r2 /\
    agent r1 = "B" /\ agent r2 = "B" /\
    (week_start r1 = week_start r2 -> 1%nat = 2%nat).
Proof.
  assert (Hload : exists df, pg_load_weekly_data two_week_viewings sample_prospects
                             = Some df /\
            exists r1 r2, df !! 1%nat = Some r1 /\ df !! 2%nat = Some r2 /\
              agent r1 = "B" /\ agent r2 = "B").
  { eexists. split; [vm_compute; reflexivity|].
    eexists _, _. repeat split; reflexivity. }
  destruct Hload as (df & Hload & r1 & r2 & H1 & H2 & Ha1 & Ha2).
  exists df, r1, r2. do 5 (split; [done|]).
  apply (loaded_keys_unique to_date_ddmmyyyy pg_select_div_scale String.leb
           two_week_viewings sample_prospects df 1%nat 2%nat r1 r2 Hload H1 H2).
  by rewrite Ha1, Ha2.
Defined.

Lemma date_leb_antisym (a b : date) :
  date_leb a b = true -> date_leb b a = true -> a = b.
Proof.
  unfold date_leb. destruct a, b; simpl.
  rewrite !orb_true_iff, !andb_true_iff, !orb_true_iff, !andb_true_iff,
    !Z.ltb_lt, !Z.eqb_eq, !Z.leb_le. intros; f_equal; lia.
Qed.

Section order_by.
Variable TO_DATE : string -> option date.
Variable select_div_scale : numeric -> numeric -> nat.
Variable collate_leb : string -> string -> bool.
Hypothesis collate_total : forall a b, collate_leb a b = true \/ collate_leb b a = true.
Hypothesis collate_trans : forall a b c,
  collate_leb a b = true -> collate_leb b c = true -> collate_leb a c = true.

Lemma order_by_leb_spec (r1 r2 : WeeklyMetric) :
  order_by_leb collate_leb r1 r2 = true <->
  date_leb (week_start r2) (week_start r1) = false \/
  (week_start r1 = week_start r2 /\ collate_leb (agent r1) (agent r2) = true).
Proof.
  unfold order_by_leb.
  rewrite orb_true_iff, andb_true_iff, negb_true_iff, bool_decide_eq_true. done.
Qed.

#[local] Instance order_by_total :
  Total (fun r1 r2 => Is_true (order_by_leb collate_leb r1 r2)).
Proof.
  intros r1 r2. rewrite !Is_true_true, !order_by_leb_spec.
  destruct (date_leb (week_start r2) (week_start r1)) eqn:H21; [|by do 2 left].
  destruct (date_leb (week_start r1) (week_start r2)) eqn:H12; [|by right; left].
  pose proof (date_leb_antisym _ _ H12 H21) as Heq.
  destruct (collate_total (agent r1) (agent r2)); [left|right]; by right.
Qed.

#[local] Instance order_by_trans :
  Transitive (fun r1 r2 => Is_true (order_by_leb collate_leb r1 r2)).
Proof.
  intros r1 r2 r3. rewrite !Is_true_true, !order_by_leb_spec.
  intros [H12|[E12 C12]] [H23|[E23 C23]].
  - left. destruct (date_leb (week_start r3) (week_start r1)) eqn:H31; [|done].
    apply date_leb_total in H12.
    by rewrite (date_leb_trans _ _ _ H31 H12) in H23.
  - left. by rewrite <- E23.
  - left. by rewrite E12.
  - right. split; [congruence|eauto].
Qed.

(** X6 -- order of the rows: under a collation that is a total preorder,
    the loaded table is in [ORDER BY week_start, agent] order: an earlier
    row never has a later [week_start], and rows of one week are in
    collation order of their agents. *)
Theorem loaded_rows_ordered (vs : list viewings.row) (ps : list prospects.row)
    (df : list WeeklyMetric) (i j : nat) (r1 r2 : WeeklyMetric) :
  load_weekly_data TO_DATE select_div_scale collate_leb vs ps = Some df ->
  (i < j)%nat -> df !! i = Some r1 -> df !! j = Some r2 ->
  date_le (week_start r1) (week_start r2) /\
  (week_start r1 = week_start r2 -> collate_leb (agent r1) (agent r2) = true).
Proof.
  unfold load_weekly_data. intros Hload Hij Hi Hj.
  destruct (cleaned_viewings TO_DATE vs) as [cs|]; [|done]. simpl in Hload.
  destruct (mapM _ _) as [rows|]; [|done]. simpl in Hload.
  injection Hload as <-.
  pose proof (StronglySorted_merge_sort
                (fun r1 r2 => Is_true (order_by_leb collate_leb r1 r2)) rows) as Hs.
  pose proof (StronglySorted_lookup _ _ i j r1 r2 Hs Hij Hi Hj) as Hr.
  apply Is_true_true, order_by_leb_spec in Hr.
  destruct Hr as [Hlt|[Heq Hc]].
  - split; [by apply date_leb_total|]. intros Heq.
    rewrite Heq, date_leb_refl in Hlt. done.
  - split; [|done]. unfold date_le. rewrite Heq. apply date_leb_refl.
Qed.
End order_by.

Lemma string_leb_total (a b : string) :
  String.leb a b = true \/ String.leb b a = true.
Proof. apply String.leb_total. Qed.

Lemma loaded_rows_ordered_witness :
  exists df r1 r2,
    pg_load_weekly_data two_week_viewings sample_prospects = Some df /\
    df !! 0%nat = Some r1 /\ df !! 2%nat = Some r2 /\
    week_start r1 = mkdate 2024 1 1 /\ week_start r2 = mkdate 2024 1 8 /\
    date_le (week_start r1) (week_start r2).
Proof.
  assert (Hload : exists df, pg_load_weekly_data two_week_viewings sample_prospects
                             = Some df /\
            exists r1 r2, df !! 0%nat = Some r1 /\ df !! 2%nat = Some r2 /\
              week_start r1 = mkdate 2024 1 1 /\ week_start r2 = mkdate 2024 1 8).
  { eexists. split; [vm_compute; reflexivity|].
    eexists _, _. repeat split; reflexivity. }
  destruct Hload as (df & Hload & r1 & r2 & H1 & H2 & Hw1 & Hw2).
  exists df, r1, r2. do 5 (split; [done|]).
  exact (proj1 (loaded_rows_ordered to_date_ddmmyyyy pg_select_div_scale String.leb
                  string_leb_total string_leb_trans _ _ df 0%nat 2%nat r1 r2
                  Hload ltac:(lia) H1 H2)).
Defined.

(** ** The prospects table only decides applications and tenants *)

Section prospects_join.
Variable TO_DATE : string -> option date.
Variable select_div_scale : numeric -> numeric -> nat.
Variable collate_leb : string -> string -> bool.

Lemma load_weekly_data_Some (vs : list viewings.row) (ps : list prospects.row)
    (df : list WeeklyMetric) :
  load_weekly_data TO_DATE select_div_scale collate_leb vs ps = Some df ->
  exists cs rows,
    cleaned_viewings TO_DATE vs = Some cs /\
    mapM (select_row select_div_scale) (weekly (left_join cs ps)) = Some rows /\
    df ≡ₚ rows.
Proof.
  unfold load_weekly_data. intros Hload.
  destruct (cleaned_viewings TO_DATE vs) as [cs|]; [|done]. simpl in Hload.
  destruct (mapM _ _) as [rows|] eqn:Hrows; [|done]. simpl in Hload.
  injection Hload as <-. exists cs, rows.
  split; [done|]. split; [done|]. apply merge_sort_Permutation.
Qed.

Lemma viewers_of_group (cs : list cleaned_viewing) (ps : list prospects.row)
    (k : string * date) (x : string) :
  Some x ∈ (fun j : cleaned_viewing * option prospects.row => Some (cv_personId j.1))
             <$> filter (fun j => group_key j = k) (left_join cs ps) <->
  exists c, c ∈ cs /\ (cv_Agent c, date_trunc_week (viewing_date c)) = k /\
            cv_personId c = x.
Proof.
  rewrite list_elem_of_fmap. split.
  - intros (j & [= ->] & Hj). apply list_elem_of_filter in Hj as [Hk Hj].
    exists j.1. split; [by eapply elem_of_left_join|done].
  - intros (c & Hc & Hk & <-). destruct (left_join_covers cs ps c Hc) as [o Ho].
    exists (c, o). split; [done|]. by apply list_elem_of_filter.
Qed.

Lemma group_viewers_count (cs : list cleaned_viewing) (ps ps' : list prospects.row)
    (k : string * date) :
  w_total_viewings (weekly_group (left_join cs ps) k) =
  w_total_viewings (weekly_group (left_join cs ps') k).
Proof.
  unfold weekly_group. simpl.
  apply Z.le_antisymm; apply count_distinct_mono; intros x;
    rewrite !viewers_of_group; done.
Qed.

(** X7 -- the prospects table does not decide which rows exist: loading the
    same viewings against another prospects table succeeds as well and
    gives, for every row, a row of the same agent and week with the same
    [total_viewings]. *)
Theorem viewings_count_ignores_prospects (vs : list viewings.row)
    (ps ps' : list prospects.row) (df : list WeeklyMetric) (r : WeeklyMetric) :
  load_weekly_data TO_DATE select_div_scale collate_leb vs ps = Some df ->
  r ∈ df ->
  exists df' r',
    load_weekly_data TO_DATE select_div_scale collate_leb vs ps' = Some df' /\
    r' ∈ df' /\ agent r' = agent r /\ week_start r' = week_start r /\
    week_end r' = week_end r /\ total_viewings r' = total_viewings r.
Proof.
  intros Hload Hr.
  destruct (load_weekly_data TO_DATE select_div_scale collate_leb vs ps')
    as [df'|] eqn:Hload'.
  2: { destruct (load_weekly_data_Some _ _ _ Hload) as (cs & rows & Hcs & Hrows & _).
       unfold load_weekly_data in Hload'. rewrite Hcs in Hload'. simpl in Hload'.
       assert (Hnone : mapM (select_row select_div_scale)
                         (weekly (left_join cs ps')) = None)
         by (by destruct (mapM _ (weekly (left_join cs ps')))).
       apply select_rows_None in Hnone.
       apply (select_rows_None select_div_scale cs ps) in Hnone.
       by rewrite Hrows in Hnone. }
  exists df'.
  destruct (load_weekly_data_origin _ _ _ _ _ _ _ Hload Hr)
    as (cs & joined & k & c & Hcs & -> & Hc & -> & _ & Hsel).
  destruct (load_weekly_data_Some _ _ _ Hload') as (cs' & rows' & Hcs' & Hrows' & Hperm).
  rewrite Hcs in Hcs'. injection Hcs' as <-.
  destruct (left_join_covers cs ps' c Hc) as [o Ho].
  assert (Hw : weekly_group (left_join cs ps')
                 (cv_Agent c, date_trunc_week (viewing_date c))
               ∈ weekly (left_join cs ps')).
  { apply elem_of_weekly. by exists (c, o). }
  apply mapM_Some in Hrows'.
  apply list_elem_of_lookup_1 in Hw as [i Hi].
  destruct (Forall2_lookup_l _ _ _ _ _ Hrows' Hi) as (r' & Hr' & Hsel').
  apply list_elem_of_lookup_2 in Hr'. exists r'.
  split; [done|]. split; [by rewrite Hperm|].
  pose proof (select_row_fields _ _ _ Hsel) as (Hv & _).
  pose proof (select_row_fields _ _ _ Hsel') as (Hv' & _).
  apply select_row_week in Hsel as (Ha & Hws & Hwe).
  apply select_row_week in Hsel' as (Ha' & Hws' & Hwe').
  rewrite (proj1 (weekly_group_key _ _ _)) in Ha.
  rewrite (proj1 (weekly_group_key _ _ _)) in Ha'.
  rewrite (proj2 (weekly_group_key _ _ _)) in Hws, Hwe.
  rewrite (proj2 (weekly_group_key _ _ _)) in Hws', Hwe'.
  split; [congruence|]. split; [congruence|]. split; [congruence|].
  rewrite Hv, Hv'. apply group_viewers_count.
Qed.

(** X8 -- viewers without a prospect record: when no prospect carries the
    person identifier of any viewing, every row still counts its viewers
    (at least one), has no application and no tenant, and its
    [app_to_tenant_rate] is NULL. *)
Theorem unmatched_viewers_not_counted (vs : list viewings.row)
    (ps : list prospects.row) (df : list WeeklyMetric) (r : WeeklyMetric) :
  (forall v p, v ∈ vs -> p ∈ ps ->
     viewings.personId v ≠ Some (prospects.personId p)) ->
  load_weekly_data TO_DATE select_div_scale collate_leb vs ps = Some df ->
  r ∈ df ->
  1 <= total_viewings r /\
  applications r = 0 /\ tenants r = 0 /\ app_to_tenant_rate r = None.
Proof.
  intros Hno Hload Hr.
  split; [exact (loaded_row_viewers_pos _ _ _ _ _ _ _ Hload Hr)|].
  destruct (load_weekly_data_origin _ _ _ _ _ _ _ Hload Hr)
    as (cs & joined & k & c & Hcs & -> & Hc & -> & _ & Hsel).
  apply select_row_fields in Hsel as (_ & Ha & Ht & _ & Hrate & _).
  assert (Hnone : forall j, j ∈ left_join cs ps -> j.2 = None).
  { intros j. unfold left_join. rewrite list_elem_of_bind.
    intros (c' & Hj & Hc').
    destruct (filter _ ps) as [|p l] eqn:Hf;
      [by apply list_elem_of_singleton in Hj as ->|].
    assert (Hp : p ∈ filter (fun p => cv_personId c' = prospects.personId p) ps)
      by (rewrite Hf; left).
    apply list_elem_of_filter in Hp as [Hpid Hp].
    apply (elem_of_cleaned_viewings _ _ _ _ Hcs) in Hc' as (v & Hv & Hvp & _).
    destruct (Hno v p Hv Hp). by rewrite Hvp, Hpid. }
  assert (Ha0 : applications r = 0).
  { rewrite Ha. unfold weekly_group. simpl. apply count_distinct_all_None.
    intros e. rewrite list_elem_of_fmap. intros (j & -> & Hj).
    apply list_elem_of_filter in Hj as [_ Hj]. unfold case_applied.
    by rewrite (Hnone j Hj). }
  assert (Ht0 : tenants r = 0).
  { rewrite Ht. unfold weekly_group. simpl. apply count_distinct_all_None.
    intros e. rewrite list_elem_of_fmap. intros (j & -> & Hj).
    apply list_elem_of_filter in Hj as [_ Hj]. unfold case_current.
    by rewrite (Hnone j Hj). }
  split; [done|]. split; [done|]. rewrite Hrate. by apply rate_None.
Qed.
End prospects_join.

Lemma unmatched_viewers_not_counted_witness :
  exists r,
    pg_load_weekly_data sample_viewings [] = Some [r] /\
    total_viewings r = 3 /\ applications r = 0 /\ tenants r = 0 /\
    app_to_tenant_rate r = None.
Proof.
  assert (Hload : exists r, pg_load_weekly_data sample_viewings [] = Some [r] /\
                            total_viewings r = 3).
  { eexists. split; [vm_compute; reflexivity|reflexivity]. }
  destruct Hload as (r & Hload & Hv). exists r. split; [done|]. split; [done|].
  assert (Hno : forall (v : viewings.row) (p : prospects.row),
            v ∈ sample_viewings -> p ∈ [] ->
            viewings.personId v ≠ Some (prospects.personId p)).
  { intros v p _ Hp. inversion Hp. }
  exact (proj2 (unmatched_viewers_not_counted to_date_ddmmyyyy
                  pg_select_div_scale String.leb sample_viewings [] [r] r Hno
                  Hload (list_elem_of_here r []))).
Defined.

Lemma viewings_count_ignores_prospects_witness :
  exists df' r',
    pg_load_weekly_data sample_viewings [] = Some df' /\ r' ∈ df' /\
    agent r' = "A" /\ week_start r' = mkdate 2024 1 1 /\
    week_end r' = mkdate 2024 1 7 /\ total_viewings r' = 3.
Proof.
  assert (Hload : pg_load_weekly_data sample_viewings sample_prospects
                  = Some [sample_metric]) by (vm_compute; reflexivity).
  exact (viewings_count_ignores_prospects to_date_ddmmyyyy pg_select_div_scale
           String.leb sample_viewings sample_prospects [] [sample_metric]
           sample_metric Hload ltac:(by left)).
Defined.

(** ** More on the ranking aggregation *)

Lemma col_sum_cons (col : WeeklyMetric -> Z) (r : WeeklyMetric) (l : list WeeklyMetric) :
  col_sum col (r :: l) = col r + col_sum col l.
Proof. done. Qed.

Lemma sumZ_indicator (K : list string) (b : string) (c : Z) (g : string -> Z) :
  NoDup K -> b ∈ K ->
  sumZ ((fun a => (if decide (b = a) then c else 0) + g a) <$> K) =
  c + sumZ (g <$> K).
Proof.
  induction 1 as [|a K Hnin Hnd IH]; intros Hb; [by apply elem_of_nil in Hb|].
  rewrite !fmap_cons. unfold sumZ in *. simpl.
  destruct (decide (b = a)) as [->|Hne].
  - assert (Hzero : foldr Z.add 0
                      ((fun a0 => (if decide (a = a0) then c else 0) + g a0) <$> K)
                    = foldr Z.add 0 (g <$> K)).
    { f_equal. apply list_fmap_ext. intros i a' Ha'.
      rewrite decide_False; [done|]. intros <-.
      apply Hnin. by eapply list_elem_of_lookup_2. }
    rewrite Hzero. lia.
  - apply elem_of_cons in Hb as [?|Hb]; [done|]. rewrite IH by done. lia.
Qed.

Lemma sumZ_zero {A} (f : A -> Z) (K : list A) :
  (forall a, f a = 0) -> sumZ (f <$> K) = 0.
Proof.
  intros Hf. unfold sumZ. induction K as [|a K IH]; [done|].
  rewrite fmap_cons. simpl. rewrite Hf, IH. done.
Qed.

(** Summing the per-agent sums over a duplicate-free list of agents that
    covers the rows gives the sum over the rows. *)
Lemma sum_by_agent (col : WeeklyMetric -> Z) (K : list string)
    (rows : list WeeklyMetric) :
  NoDup K -> (forall r, r ∈ rows -> agent r ∈ K) ->
  sumZ ((fun a => col_sum col (filter (fun r => agent r = a) rows)) <$> K) =
  col_sum col rows.
Proof.
  intros Hnd. induction rows as [|r rows IH]; intros Hcover.
  - by apply sumZ_zero.
  - rewrite col_sum_cons, <- IH by (intros; apply Hcover; by right).
    rewrite <- (sumZ_indicator K (agent r)) by (try done; apply Hcover; by left).
    f_equal. apply list_fmap_ext. intros i a _.
    rewrite filter_cons. by destruct (decide (agent r = a)).
Qed.

Lemma elem_of_period_df (df : list WeeklyMetric) (s e : date) (r : WeeklyMetric) :
  r ∈ period_df df s e <->
  r ∈ df /\ date_le s (week_start r) /\ date_le (week_start r) e.
Proof.
  unfold period_df, date_le. rewrite list_elem_of_filter, Is_true_true, andb_true_iff.
  tauto.
Qed.

(** X9 -- nothing is lost or counted twice: the viewings (and the tenants)
    of the rows of [agg_df] add up to those of the rows inside the
    period. *)
Theorem aggregation_conserves_totals (df : list WeeklyMetric)
    (start_date end_date : date) :
  sumZ (agg.total_viewings <$> agg_df df start_date end_date) =
    col_sum total_viewings (period_df df start_date end_date) /\
  sumZ (agg.tenants <$> agg_df df start_date end_date) =
    col_sum tenants (period_df df start_date end_date).
Proof.
  rewrite agg_df_rows, <- !list_fmap_compose.
  assert (Hcover : forall r, r ∈ period_df df start_date end_date ->
                             agent r ∈ all_agents df).
  { intros r Hr. apply elem_of_period_df in Hr as [Hr _].
    apply elem_of_all_agents. eauto. }
  split; apply (sum_by_agent _ _ _ (all_agents_NoDup df) Hcover).
Qed.

Lemma col_sum_filter_mono (col : WeeklyMetric -> Z) (P Q : WeeklyMetric -> Prop)
    `{forall r, Decision (P r)} `{forall r, Decision (Q r)} (l : list WeeklyMetric) :
  (forall r, r ∈ l -> 0 <= col r) -> (forall r, P r -> Q r) ->
  col_sum col (filter P l) <= col_sum col (filter Q l).
Proof.
  intros Hpos HPQ. induction l as [|r l IH]; [done|].
  assert (IH' : col_sum col (filter P l) <= col_sum col (filter Q l)).
  { apply IH. intros; apply Hpos; by right. }
  pose proof (Hpos r ltac:(left)) as Hr.
  rewrite !filter_cons.
  destruct (decide (P r)) as [HP|HP].
  - rewrite decide_True by auto. rewrite !col_sum_cons. lia.
  - destruct (decide (Q r)); rewrite ?col_sum_cons; lia.
Qed.

(** X10 -- a wider period never lowers a sum: with non-negative counts, the
    sum of an agent over a period is at most the sum over any period that
    starts no later and ends no earlier. *)
Theorem period_sum_monotone (col : WeeklyMetric -> Z) (df : list WeeklyMetric)
    (s e s' e' : date) (a : string) :
  (forall r, r ∈ df -> 0 <= col r) ->
  date_le s' s -> date_le e e' ->
  period_sum col df s e a <= period_sum col df s' e' a.
Proof.
  intros Hpos Hs He. unfold period_sum, period_df.
  rewrite !list_filter_filter. apply col_sum_filter_mono; [done|].
  intros r [Ha Hr]. split; [done|].
  apply Is_true_true, andb_true_iff in Hr as [H1 H2].
  apply Is_true_true, andb_true_iff. split.
  - exact (date_leb_trans _ _ _ Hs H1).
  - exact (date_leb_trans _ _ _ H2 He).
Qed.

Lemma period_sum_monotone_witness :
  period_sum total_viewings two_months_df (mkdate 2024 3 1) (mkdate 2024 3 31) "A" = 8 /\
  period_sum total_viewings two_months_df (mkdate 2024 1 1) (mkdate 2024 3 31) "A" = 18 /\
  period_sum total_viewings two_months_df (mkdate 2024 3 1) (mkdate 2024 3 31) "A" <=
  period_sum total_viewings two_months_df (mkdate 2024 1 1) (mkdate 2024 3 31) "A".
Proof.
  split; [reflexivity|]. split; [reflexivity|].
  apply period_sum_monotone; [|reflexivity|reflexivity].
  intros r Hr. unfold two_months_df in Hr.
  repeat (apply elem_of_cons in Hr as [->|Hr]; [simpl; lia|]).
  by apply elem_of_nil in Hr.
Defined.

Lemma col_sum_perm (col : WeeklyMetric -> Z) (l l' : list WeeklyMetric) :
  l ≡ₚ l' -> col_sum col l = col_sum col l'.
Proof.
  induction 1 as [|r l l' Hp IH|r1 r2 l|l1 l2 l3 H12 IH12 H23 IH23];
    rewrite ?col_sum_cons; [done|lia|lia|lia].
Qed.

Lemma sorted_str_perm_eq (l l' : list string) :
  l ≡ₚ l' -> sorted_str l = sorted_str l'.
Proof.
  intros Hp. apply (StronglySorted_unique str_le); [apply sorted_str_sorted..|].
  by rewrite !sorted_str_perm.
Qed.

Lemma all_agents_perm (df df' : list WeeklyMetric) :
  df ≡ₚ df' -> all_agents df = all_agents df'.
Proof.
  intros Hp. unfold all_agents. apply sorted_str_perm_eq.
  apply NoDup_Permutation; [apply NoDup_unique..|].
  intros a. by rewrite !elem_of_unique, Hp.
Qed.

(** X11 -- the order of the rows does not matter: two tables with the same
    rows in any order give the same [agg_df], the same bars and the same
    rank order; the ranking does not depend on how [ORDER BY] collates. *)
Theorem aggregation_ignores_row_order (sort_values : list agg.row -> list agg.row)
    (df df' : list WeeklyMetric) (start_date end_date : date) :
  df ≡ₚ df' ->
  agg_df df start_date end_date = agg_df df' start_date end_date /\
  melted (agg_df df start_date end_date) = melted (agg_df df' start_date end_date) /\
  agent_order sort_values df start_date end_date =
    agent_order sort_values df' start_date end_date.
Proof.
  intros Hp.
  assert (Hagg : agg_df df start_date end_date = agg_df df' start_date end_date).
  { rewrite !agg_df_rows, (all_agents_perm _ _ Hp).
    apply list_fmap_ext. intros _ a _. unfold period_sum, period_df.
    f_equal; apply col_sum_perm; by rewrite Hp. }
  unfold agent_order. by rewrite Hagg.
Qed.

Lemma aggregation_ignores_row_order_witness :
  agg_df two_months_df (mkdate 2024 1 1) (mkdate 2024 1 31) =
  agg_df (reverse two_months_df) (mkdate 2024 1 1) (mkdate 2024 1 31).
Proof.
  apply (aggregation_ignores_row_order stable_sort two_months_df
           (reverse two_months_df)).
  symmetry. apply reverse_Permutation.
Defined.

Lemma period_df_all (df : list WeeklyMetric) (s e : date) :
  (forall r, r ∈ df -> date_le s (week_start r) /\ date_le (week_start r) e) ->
  period_df df s e = df.
Proof.
  intros Hall. unfold period_df.
  induction df as [|r df IH]; [done|].
  rewrite filter_cons_True, IH; [done|intros; apply Hall; by right|].
  destruct (Hall r ltac:(left)) as [H1 H2]. unfold date_le in *.
  by rewrite H1, H2.
Qed.

(** X12 -- the default custom range: from the earliest to the latest
    [week_start] of the table, the period holds every row, and the sums
    of the ranking for an agent are the totals of the agent's summary. *)
Theorem default_custom_range_covers_all (df : list WeeklyMetric)
    (start_date end_date : date) (a : string) :
  dates_min (week_start <$> df) = Some start_date ->
  dates_max (week_start <$> df) = Some end_date ->
  period_df df start_date end_date = df /\
  period_sum total_viewings df start_date end_date a =
    summary.total_viewings (performance_summary df a) /\
  period_sum tenants df start_date end_date a =
    summary.total_tenants (performance_summary df a).
Proof.
  intros Hmin Hmax.
  apply dates_min_spec in Hmin as [_ Hmin]. apply dates_max_spec in Hmax as [_ Hmax].
  assert (Hall : period_df df start_date end_date = df).
  { apply period_df_all. intros r Hr.
    split; [apply Hmin|apply Hmax]; by apply list_elem_of_fmap_2. }
  unfold period_sum. by rewrite Hall.
Qed.

Lemma default_custom_range_covers_all_witness :
  dates_min (week_start <$> two_months_df) = Some (mkdate 2024 1 1) /\
  dates_max (week_start <$> two_months_df) = Some (mkdate 2024 3 4) /\
  period_sum total_viewings two_months_df (mkdate 2024 1 1) (mkdate 2024 3 4) "A" =
    summary.total_viewings (performance_summary two_months_df "A").
Proof.
  split; [reflexivity|]. split; [reflexivity|].
  exact (proj1 (proj2 (default_custom_range_covers_all two_months_df
                         (mkdate 2024 1 1) (mkdate 2024 3 4) "A" eq_refl eq_refl))).
Defined.


Section top_rank.
Variable sort_values : list agg.row -> list agg.row.
Hypothesis Hsort : sort_contract sort_values.

(** X14 -- the head of the ranking: the agent ranked first has a sum of
    viewings that no agent of the table exceeds. *)
Theorem top_ranked_is_maximal (df : list WeeklyMetric) (start_date end_date : date)
    (top : string) (rest : list string) (b : string) :
  agent_order sort_values df start_date end_date = top :: rest ->
  b ∈ all_agents df ->
  period_sum total_viewings df start_date end_date b <=
  period_sum total_viewings df start_date end_date top.
Proof.
  intros Horder Hb.
  rewrite <- (agent_order_perm sort_values Hsort df start_date end_date), Horder in Hb.
  apply elem_of_cons in Hb as [->|Hb]; [lia|].
  apply list_elem_of_lookup_1 in Hb as [i Hi].
  apply (agent_order_non_increasing sort_values Hsort df start_date end_date
           0%nat (S i) top b); [lia|by rewrite Horder|by rewrite Horder].
Qed.
End top_rank.

Lemma top_ranked_is_maximal_witness :
  agent_order stable_sort two_months_df (mkdate 2024 1 1) (mkdate 2024 1 31)
    = ["A"; "B"] /\
  period_sum total_viewings two_months_df (mkdate 2024 1 1) (mkdate 2024 1 31) "B" <=
  period_sum total_viewings two_months_df (mkdate 2024 1 1) (mkdate 2024 1 31) "A".
Proof.
  split; [vm_compute; reflexivity|].
  apply (top_ranked_is_maximal stable_sort insertion_sort_desc_contract
           two_months_df (mkdate 2024 1 1) (mkdate 2024 1 31) "A" ["B"] "B").
  - vm_compute; reflexivity.
  - vm_compute. right. left.
Defined.

(** ** More on the summary and on the selector *)

Lemma filter_ext_elem {A} (P Q : A -> Prop) `{forall x, Decision (P x)}
    `{forall x, Decision (Q x)} (l : list A) :
  (forall x, x ∈ l -> P x <-> Q x) -> filter P l = filter Q l.
Proof.
  induction l as [|x l IH]; intros Hext; [done|].
  rewrite !filter_cons, IH by (intros; apply Hext; by right).
  destruct (decide (P x)) as [HP|HP], (decide (Q x)) as [HQ|HQ]; try done.
  - destruct HQ. by apply (Hext x ltac:(left)).
  - destruct HP. by apply (Hext x ltac:(left)).
Qed.

(** X16 -- the bounds of the summary: for an agent of the table, the summary
    starts on the earliest [week_start] and ends on the latest [week_end]
    among the agent's rows of the whole table. *)
Theorem summary_period_bounds (df : list WeeklyMetric) (a : string) :
  a ∈ all_agents df ->
  exists first last,
    summary.period_start (performance_summary df a) = Some first /\
    summary.period_end (performance_summary df a) = Some last /\
    (exists r, r ∈ df /\ agent r = a /\ week_start r = first) /\
    (exists r, r ∈ df /\ agent r = a /\ week_end r = last) /\
    (forall r, r ∈ df -> agent r = a ->
       date_le first (week_start r) /\ date_le (week_end r) last).
Proof.
  intros Ha. apply elem_of_all_agents in Ha as (r0 & Hr0 & Hag0).
  unfold performance_summary. simpl.
  set (rows := filter (fun r => agent r = a) df).
  assert (Hin : r0 ∈ rows) by (by apply list_elem_of_filter).
  destruct (dates_min (week_start <$> rows)) as [first|] eqn:Hmin.
  2: { destruct rows; [by apply elem_of_nil in Hin|done]. }
  destruct (dates_max (week_end <$> rows)) as [last|] eqn:Hmax.
  2: { destruct rows; [by apply elem_of_nil in Hin|done]. }
  apply dates_min_spec in Hmin as [Hfirst Hmin].
  apply dates_max_spec in Hmax as [Hlast Hmax].
  exists first, last. split; [done|]. split; [done|].
  apply list_elem_of_fmap in Hfirst as (r1 & -> & Hr1).
  apply list_elem_of_fmap in Hlast as (r2 & -> & Hr2).
  apply list_elem_of_filter in Hr1 as [Ha1 Hr1].
  apply list_elem_of_filter in Hr2 as [Ha2 Hr2].
  split; [by exists r1|]. split; [by exists r2|].
  intros r Hr Hag.
  assert (Hrow : r ∈ rows) by (by apply list_elem_of_filter).
  split; [apply Hmin|apply Hmax]; by apply list_elem_of_fmap_2.
Qed.

Lemma summary_period_bounds_witness :
  summary.period_start (performance_summary two_months_df "A") = Some (mkdate 2024 1 1) /\
  summary.period_end (performance_summary two_months_df "A") = Some (mkdate 2024 3 10) /\
  exists first last,
    summary.period_start (performance_summary two_months_df "A") = Some first /\
    summary.period_end (performance_summary two_months_df "A") = Some last.
Proof.
  split; [reflexivity|]. split; [reflexivity|].
  assert (Ha : "A" ∈ all_agents two_months_df) by (vm_compute; left).
  destruct (summary_period_bounds two_months_df "A" Ha)
    as (first & last & H1 & H2 & _).
  by exists first, last.
Defined.

Lemma resolve_week_inv (anchor s e : date) :
  resolve_period (Week anchor) = Some (s, e) ->
  s = anchor /\ valid_date e /\ toordinal e = toordinal anchor + 6.
Proof.
  unfold resolve_period. destruct (add_days anchor 6) as [e'|] eqn:Hadd; [|done].
  simpl. intros [= <- <-]. by apply add_days_inv in Hadd as (_ & ? & ?).
Qed.

Lemma mondays_in_one_week (a b : Z) (n : Z) :
  (a + 6) mod 7 = 0 -> (b + 6) mod 7 = 0 ->
  n <= a <= n + 6 -> n <= b <= n + 6 -> a = b.
Proof.
  intros Ha Hb Hra Hrb.
  pose proof (Z.div_mod (a + 6) 7 ltac:(lia)) as Ea.
  pose proof (Z.div_mod (b + 6) 7 ltac:(lia)) as Eb.
  rewrite Ha in Ea. rewrite Hb in Eb. lia.
Qed.

(** X17 -- Week mode shows one week: on a table whose [week_start]s are
    Mondays (as the loader produces them), all rows inside a Week-mode
    period have the same [week_start], whatever weekday the anchor is. *)
Theorem week_mode_single_week (df : list WeeklyMetric) (anchor s e : date)
    (r1 r2 : WeeklyMetric) :
  valid_date anchor ->
  (forall r, r ∈ df -> valid_date (week_start r) /\ weekday (week_start r) = 0) ->
  resolve_period (Week anchor) = Some (s, e) ->
  r1 ∈ period_df df s e -> r2 ∈ period_df df s e ->
  week_start r1 = week_start r2.
Proof.
  intros Hanchor Hdf Hres H1 H2.
  apply resolve_week_inv in Hres as (-> & Hve & Hoe).
  apply elem_of_period_df in H1 as (Hr1 & Hlo1 & Hhi1).
  apply elem_of_period_df in H2 as (Hr2 & Hlo2 & Hhi2).
  destruct (Hdf r1 Hr1) as [Hv1 Hm1]. destruct (Hdf r2 Hr2) as [Hv2 Hm2].
  apply toordinal_le in Hlo1, Hhi1, Hlo2, Hhi2; try done.
  apply toordinal_inj; [done..|].
  unfold weekday in Hm1, Hm2.
  apply (mondays_in_one_week _ _ (toordinal anchor)); try done; lia.
Qed.

Lemma week_mode_single_week_witness :
  weekday (mkdate 2023 12 28) = 3 /\
  resolve_period (Week (mkdate 2023 12 28)) =
    Some (mkdate 2023 12 28, mkdate 2024 1 3) /\
  (agent <$> period_df two_months_df (mkdate 2023 12 28) (mkdate 2024 1 3))
    = ["A"; "B"] /\
  week_start (mkWeeklyMetric "A" (mkdate 2024 1 1) (mkdate 2024 1 7) 10 5 2
                (Some (mknumeric 500 1)) (Some (mknumeric 400 1))
                (Some (mknumeric 200 1))) =
  week_start (mkWeeklyMetric "B" (mkdate 2024 1 1) (mkdate 2024 1 7) 0 0 0
                None None None).
Proof.
  split; [reflexivity|]. split; [reflexivity|]. split; [reflexivity|].
  apply (week_mode_single_week two_months_df (mkdate 2023 12 28)
           (mkdate 2023 12 28) (mkdate 2024 1 3)).
  - vm_compute; intuition discriminate.
  - intros r Hr. unfold two_months_df in Hr.
    repeat (apply elem_of_cons in Hr as [->|Hr];
            [split; [vm_compute; intuition discriminate|reflexivity]|]).
    by apply elem_of_nil in Hr.
  - reflexivity.
  - vm_compute. left.
  - vm_compute. right. left.
Defined.

(** X18 -- the default week: anchored at the latest [week_start] of the
    table, as the date picker is by default, the Week-mode period holds
    exactly the rows of that latest week. *)
Theorem default_week_is_latest (df : list WeeklyMetric) (latest s e : date) :
  (forall r, r ∈ df -> valid_date (week_start r)) ->
  dates_max (week_start <$> df) = Some latest ->
  resolve_period (Week latest) = Some (s, e) ->
  period_df df s e = filter (fun r => week_start r = latest) df.
Proof.
  intros Hdf Hmax Hres.
  apply dates_max_spec in Hmax as [Hin Hmax].
  apply list_elem_of_fmap in Hin as (r0 & -> & Hr0).
  apply resolve_week_inv in Hres as (-> & Hve & Hoe).
  unfold period_df. apply filter_ext_elem. intros r Hr.
  rewrite Is_true_true, andb_true_iff. split.
  - intros [Hlo _]. apply date_leb_antisym; [|done].
    apply Hmax. by apply list_elem_of_fmap_2.
  - intros ->. split; [apply date_leb_refl|].
    apply toordinal_le; [by apply Hdf|done|lia].
Qed.

Lemma default_week_is_latest_witness :
  dates_max (week_start <$> two_months_df) = Some (mkdate 2024 3 4) /\
  resolve_period (Week (mkdate 2024 3 4)) = Some (mkdate 2024 3 4, mkdate 2024 3 10) /\
  period_df two_months_df (mkdate 2024 3 4) (mkdate 2024 3 10) =
    filter (fun r => week_start r = mkdate 2024 3 4) two_months_df.
Proof.
  split; [reflexivity|]. split; [reflexivity|].
  apply (default_week_is_latest two_months_df (mkdate 2024 3 4)); [|reflexivity..].
  intros r Hr. unfold two_months_df in Hr.
  repeat (apply elem_of_cons in Hr as [->|Hr]; [vm_compute; intuition discriminate|]).
  by apply elem_of_nil in Hr.
Defined.

Lemma col_sum_le (f g : WeeklyMetric -> Z) (l : list WeeklyMetric) :
  (forall r, r ∈ l -> f r <= g r) -> col_sum f l <= col_sum g l.
Proof.
  induction l as [|r l IH]; intros Hle; [done|].
  rewrite !col_sum_cons.
  pose proof (Hle r ltac:(left)). pose proof (IH ltac:(intros; apply Hle; by right)).
  lia.
Qed.

Section loaded_table.
Variable TO_DATE : string -> option date.
Variable select_div_scale : numeric -> numeric -> nat.
Variable collate_leb : string -> string -> bool.
Variable sort_values : list agg.row -> list agg.row.

Lemma loaded_row_counts (vs : list viewings.row) (ps : list prospects.row)
    (df : list WeeklyMetric) (r : WeeklyMetric) :
  load_weekly_data TO_DATE select_div_scale collate_leb vs ps = Some df ->
  r ∈ df ->
  0 <= applications r <= total_viewings r /\ 0 <= tenants r <= total_viewings r.
Proof.
  intros Hload Hr.
  destruct (load_weekly_data_row _ _ _ _ _ _ _ Hload Hr) as (joined & k & Hsel).
  destruct (weekly_group_counts joined k) as [Happ Hten].
  apply select_row_fields in Hsel as (Hv & Ha & Ht & _).
  by rewrite Hv, Ha, Ht.
Qed.

(** X19 -- the trend line has no gaps: on a loaded table every point of an
    agent's trend carries a conversion rate, between 0 and 100. *)
Theorem trend_has_no_gaps (vs : list viewings.row) (ps : list prospects.row)
    (df : list WeeklyMetric) (start_date end_date : date) (selected_agent : string)
    (week : date) (rate : option numeric) :
  load_weekly_data TO_DATE select_div_scale collate_leb vs ps = Some df ->
  (week, rate) ∈ agent_trend (render sort_values df start_date end_date selected_agent) ->
  exists x, rate = Some x /\ in_percent_range x.
Proof.
  intros Hload Hpoint. simpl in Hpoint.
  apply list_elem_of_fmap in Hpoint as (r & [= -> ->] & Hr).
  apply list_elem_of_filter in Hr as [_ Hr].
  pose proof (loaded_row_viewers_pos _ _ _ _ _ _ _ Hload Hr) as Hpos.
  destruct (loaded_row_counts _ _ _ _ Hload Hr) as [_ Hten].
  destruct (load_weekly_data_row _ _ _ _ _ _ _ Hload Hr) as (joined & k & Hsel).
  apply select_row_fields in Hsel as (_ & _ & _ & _ & _ & Hrate).
  destruct (total_conversion_rate r) as [x|] eqn:Hx.
  2: { symmetry in Hrate. apply rate_None in Hrate. lia. }
  exists x. split; [done|]. symmetry in Hrate.
  apply (rate_bounds _ _ _ 1) in Hrate; [done|lia..].
Qed.

(** X20 -- totals of the summary on a loaded table: the applications and the
    tenants an agent's summary adds up are non-negative and neither
    exceeds the viewings it adds up. *)
Theorem summary_totals_bounded (vs : list viewings.row) (ps : list prospects.row)
    (df : list WeeklyMetric) (selected_agent : string) :
  load_weekly_data TO_DATE select_div_scale collate_leb vs ps = Some df ->
  let s := performance_summary df selected_agent in
  0 <= summary.total_apps s <= summary.total_viewings s /\
  0 <= summary.total_tenants s <= summary.total_viewings s.
Proof.
  intros Hload. cbv zeta. unfold performance_summary. simpl.
  assert (Hrows : forall r, r ∈ filter (fun r => agent r = selected_agent) df ->
            0 <= applications r <= total_viewings r /\
            0 <= tenants r <= total_viewings r).
  { intros r Hr. apply list_elem_of_filter in Hr as [_ Hr].
    by eapply loaded_row_counts. }
  pose proof (col_sum_le (fun _ => 0) applications _
                (fun r Hr => proj1 (proj1 (Hrows r Hr)))) as H1.
  pose proof (col_sum_le applications total_viewings _
                (fun r Hr => proj2 (proj1 (Hrows r Hr)))) as H2.
  pose proof (col_sum_le (fun _ => 0) tenants _
                (fun r Hr => proj1 (proj2 (Hrows r Hr)))) as H3.
  pose proof (col_sum_le tenants total_viewings _
                (fun r Hr => proj2 (proj2 (Hrows r Hr)))) as H4.
  assert (Hz : forall l, col_sum (fun _ => 0) l = 0).
  { induction l as [|r l IH]; [done|]. rewrite col_sum_cons. lia. }
  rewrite Hz in H1, H3. lia.
Qed.
End loaded_table.

Lemma trend_has_no_gaps_witness :
  exists x,
    total_conversion_rate sample_metric = Some x /\ in_percent_range x.
Proof.
  assert (Hload : pg_load_weekly_data sample_viewings sample_prospects
                  = Some [sample_metric]) by (vm_compute; reflexivity).
  apply (trend_has_no_gaps to_date_ddmmyyyy pg_select_div_scale String.leb
           stable_sort sample_viewings sample_prospects [sample_metric]
           (mkdate 2024 1 1) (mkdate 2024 1 7) "A" (mkdate 2024 1 1) _ Hload).
  vm_compute. left.
Defined.

Lemma summary_totals_bounded_witness :
  summary.total_apps (performance_summary [sample_metric] "A") = 1 /\
  summary.total_viewings (performance_summary [sample_metric] "A") = 3 /\
  0 <= summary.total_apps (performance_summary [sample_metric] "A")
    <= summary.total_viewings (performance_summary [sample_metric] "A").
Proof.
  assert (Hload : pg_load_weekly_data sample_viewings sample_prospects
                  = Some [sample_metric]) by (vm_compute; reflexivity).
  split; [reflexivity|]. split; [reflexivity|].
  exact (proj1 (summary_totals_bounded to_date_ddmmyyyy pg_select_div_scale
                  String.leb sample_viewings sample_prospects [sample_metric] "A"
                  Hload)).
Defined.

(** ** What the three counts count *)

Lemma distinct_ext `{EqDecision A} (l l' : list A) :
  (forall x, x ∈ l <-> x ∈ l') -> distinct l = distinct l'.
Proof.
  intros Hext. unfold distinct. f_equal. apply Permutation_length.
  apply NoDup_Permutation; [apply NoDup_remove_dups..|].
  intros x. by rewrite !elem_of_remove_dups.
Qed.

Lemma elem_of_left_join_Some (cs : list cleaned_viewing) (ps : list prospects.row)
    (c : cleaned_viewing) (p : prospects.row) :
  (c, Some p) ∈ left_join cs ps <->
  c ∈ cs /\ p ∈ ps /\ cv_personId c = prospects.personId p.
Proof.
  unfold left_join. rewrite list_elem_of_bind. split.
  - intros (c' & Hj & Hc').
    destruct (filter _ ps) as [|q l] eqn:Hf.
    + by apply list_elem_of_singleton in Hj.
    + apply list_elem_of_fmap in Hj as (q' & [= -> ->] & Hq').
      rewrite <- Hf in Hq'. apply list_elem_of_filter in Hq' as [? ?]. done.
  - intros (Hc & Hp & Hpid). exists c. split; [|done].
    assert (Hin : p ∈ filter (fun p => cv_personId c = prospects.personId p) ps)
      by (by apply list_elem_of_filter).
    destruct (filter _ ps) as [|q l]; [by apply elem_of_nil in Hin|].
    apply list_elem_of_fmap. by exists p.
Qed.

Lemma group_key_eq (j : cleaned_viewing * option prospects.row) (a : string)
    (w : date) :
  group_key j = (a, w) <->
  cv_Agent j.1 = a /\ date_trunc_week (viewing_date j.1) = w.
Proof. unfold group_key. apply pair_equal_spec. Qed.

Section counts.
Variable TO_DATE : string -> option date.
Variable select_div_scale : numeric -> numeric -> nat.
Variable collate_leb : string -> string -> bool.

Lemma case_counted (P : prospects.row -> Prop) `{forall p, Decision (P p)}
    (case : cleaned_viewing * option prospects.row -> option string)
    (cs : list cleaned_viewing) (ps : list prospects.row) (a : string) (w : date) :
  (forall c o x, case (c, o) = Some x <->
                 cv_personId c = x /\ exists p, o = Some p /\ P p) ->
  count_distinct
    (case <$> filter (fun j => group_key j = (a, w)) (left_join cs ps)) =
  distinct (filter (has_prospect P ps) (group_viewers cs a w)).
Proof.
  intros Hcase. unfold count_distinct. apply distinct_ext. intros x.
  rewrite list_elem_of_omap, list_elem_of_filter. unfold group_viewers, has_prospect.
  rewrite list_elem_of_fmap, Exists_exists. split.
  - intros (e & He & Hx). destruct e as [y|]; [|done]. simpl in Hx. injection Hx as ->.
    apply list_elem_of_fmap in He as ([c o] & Hy & Hj).
    apply list_elem_of_filter in Hj as [Hk Hj].
    symmetry in Hy. apply Hcase in Hy as (Hpid & p & -> & HP).
    apply elem_of_left_join_Some in Hj as (Hc & Hp & Hcp).
    apply group_key_eq in Hk as [Hka Hkw]. simpl in Hka, Hkw. split.
    + exists p. split; [done|]. split; [congruence|done].
    + exists c. split; [done|]. by apply list_elem_of_filter.
  - intros ((p & Hp & Hpx & HP) & c & -> & Hc).
    apply list_elem_of_filter in Hc as [[Ha Hw] Hc].
    exists (Some (cv_personId c)). split; [|done].
    apply list_elem_of_fmap. exists (c, Some p). split.
    + symmetry. apply Hcase. split; [done|]. by exists p.
    + apply list_elem_of_filter. split; [by apply group_key_eq|].
      by apply elem_of_left_join_Some.
Qed.

(** X21 -- what is counted: in every row of the loaded table,
    [total_viewings] is the number of distinct persons among the kept
    viewings of the row's agent dated in the row's week, [applications]
    the number of those who have a prospect record with [Applied] set, and
    [tenants] the number of those who have a prospect record with
    [Status = 'Current']. *)
Theorem counts_characterised (vs : list viewings.row) (ps : list prospects.row)
    (df : list WeeklyMetric) (r : WeeklyMetric) :
  load_weekly_data TO_DATE select_div_scale collate_leb vs ps = Some df ->
  r ∈ df ->
  exists cs,
    cleaned_viewings TO_DATE vs = Some cs /\
    let viewers := group_viewers cs (agent r) (week_start r) in
    total_viewings r = distinct viewers /\
    applications r =
      distinct (filter (has_prospect (fun p => is_Some (prospects.Applied p)) ps)
                       viewers) /\
    tenants r =
      distinct (filter (has_prospect (fun p => prospects.Status p = "Current") ps)
                       viewers).
Proof.
  intros Hload Hr.
  destruct (load_weekly_data_origin _ _ _ _ _ _ _ Hload Hr)
    as (cs & joined & k & c & Hcs & -> & Hc & -> & _ & Hsel).
  exists cs. split; [done|].
  pose proof (select_row_fields _ _ _ Hsel) as (Hv & Ha & Ht & _).
  apply select_row_week in Hsel as (Hag & Hws & _).
  rewrite (proj1 (weekly_group_key _ _ _)) in Hag.
  rewrite (proj2 (weekly_group_key _ _ _)) in Hws.
  rewrite Hag, Hws, Hv, Ha, Ht. clear Hv Ha Ht Hag Hws.
  unfold weekly_group. cbv zeta. simpl.
  split; [|split].
  - unfold count_distinct. apply distinct_ext. intros x.
    rewrite list_elem_of_omap. unfold group_viewers. rewrite list_elem_of_fmap. split.
    + intros (e & He & Hx). simpl in Hx. subst e.
      apply (viewers_of_group cs ps) in He as (c' & Hc' & Hk & Hpid).
      exists c'. split; [done|].
      apply list_elem_of_filter. by apply pair_equal_spec in Hk.
    + intros (c' & -> & Hc'). apply list_elem_of_filter in Hc' as [[Ha Hw] Hc'].
      exists (Some (cv_personId c')). split; [|done].
      apply (viewers_of_group cs ps). exists c'. split; [done|].
      split; [by apply pair_equal_spec|done].
  - apply (case_counted (fun p => is_Some (prospects.Applied p))).
    intros c' o x. unfold case_applied. simpl. split.
    + destruct o as [p|]; simpl; [|done].
      destruct (prospects.Applied p) eqn:Hap; [|done].
      intros [= <-]. split; [done|]. exists p. by rewrite Hap.
    + intros (<- & p & -> & [y Hy]). simpl. by rewrite Hy.
  - apply (case_counted (fun p => prospects.Status p = "Current")).
    intros c' o x. unfold case_current. simpl. split.
    + destruct o as [p|]; [|done]. destruct (decide _); [|done].
      intros [= <-]. split; [done|]. by exists p.
    + intros (<- & p & -> & Hst). by rewrite decide_True.
Qed.
End counts.

Lemma counts_characterised_witness :
  exists cs,
    cleaned_viewings to_date_ddmmyyyy sample_viewings = Some cs /\
    group_viewers cs "A" (mkdate 2024 1 1) = ["p1"; "p2"; "p3"] /\
    tenants sample_metric =
      distinct (filter (has_prospect (fun p => prospects.Status p = "Current")
                          sample_prospects)
                       (group_viewers cs "A" (mkdate 2024 1 1))).
Proof.
  assert (Hload : pg_load_weekly_data sample_viewings sample_prospects
                  = Some [sample_metric]) by (vm_compute; reflexivity).
  destruct (counts_characterised to_date_ddmmyyyy pg_select_div_scale String.leb
              sample_viewings sample_prospects [sample_metric] sample_metric
              Hload (list_elem_of_here _ _)) as (cs & Hcs & _ & _ & Hten).
  exists cs. split; [done|]. split; [|done].
  assert (Hcs' : cleaned_viewings to_date_ddmmyyyy sample_viewings =
                 Some [mkcleaned "p1" "A" (mkdate 2024 1 1);
                       mkcleaned "p2" "A" (mkdate 2024 1 3);
                       mkcleaned "p3" "A" (mkdate 2024 1 4)])
    by (vm_compute; reflexivity).
  rewrite Hcs in Hcs'. injection Hcs' as ->. vm_compute. reflexivity.
Defined.

(** ** The days of a period *)

(** X22 -- the days of a Week-mode period: a date lies inside the period
    exactly when it is the anchor or one of the six days after it. *)
Theorem week_period_days (anchor s e d : date) :
  valid_date anchor -> valid_date d ->
  resolve_period (Week anchor) = Some (s, e) ->
  (date_le s d /\ date_le d e <->
   toordinal anchor <= toordinal d <= toordinal anchor + 6).
Proof.
  intros Ha Hd Hres. apply resolve_week_inv in Hres as (-> & Hve & Hoe).
  rewrite !toordinal_le by done. lia.
Qed.

Lemma week_period_days_witness :
  resolve_period (Week (mkdate 2024 2 27)) = Some (mkdate 2024 2 27, mkdate 2024 3 4) /\
  toordinal (mkdate 2024 3 1) = toordinal (mkdate 2024 2 27) + 3 /\
  (date_le (mkdate 2024 2 27) (mkdate 2024 3 1) /\
   date_le (mkdate 2024 3 1) (mkdate 2024 3 4) <->
   toordinal (mkdate 2024 2 27) <= toordinal (mkdate 2024 3 1)
     <= toordinal (mkdate 2024 2 27) + 6).
Proof.
  split; [reflexivity|]. split; [reflexivity|].
  apply (week_period_days (mkdate 2024 2 27)); [..|reflexivity];
    vm_compute; intuition discriminate.
Defined.

(** X23 -- the days of a Month-mode period: a date lies inside the period
    exactly when it has the year and the month of the anchor. *)
Theorem month_period_days (anchor s e d : date) :
  valid_date anchor -> valid_date d ->
  resolve_period (Month anchor) = Some (s, e) ->
  (date_le s d /\ date_le d e <->
   year d = year anchor /\ month d = month anchor).
Proof.
  intros Ha Hd Hres. rewrite resolve_month in Hres by done.
  injection Hres as <- <-.
  destruct Hd as (_ & _ & Hday).
  unfold date_le, date_leb. simpl.
  rewrite !orb_true_iff, !andb_true_iff, !orb_true_iff, !andb_true_iff,
    !Z.ltb_lt, !Z.eqb_eq, !Z.leb_le.
  split.
  - lia.
  - intros [Hy Hm]. rewrite Hy, Hm in Hday. lia.
Qed.

Lemma month_period_days_witness :
  resolve_period (Month (mkdate 2024 2 15)) = Some (mkdate 2024 2 1, mkdate 2024 2 29) /\
  (date_le (mkdate 2024 2 1) (mkdate 2024 2 29) /\
   date_le (mkdate 2024 2 29) (mkdate 2024 2 29) <->
   year (mkdate 2024 2 29) = year (mkdate 2024 2 15) /\
   month (mkdate 2024 2 29) = month (mkdate 2024 2 15)).
Proof.
  split; [reflexivity|].
  apply (month_period_days (mkdate 2024 2 15)); [..|reflexivity];
    vm_compute; intuition discriminate.
Defined.

(** ** The trend of a loaded table *)

Section trend.
Variable TO_DATE : string -> option date.
Variable select_div_scale : numeric -> numeric -> nat.
Variable collate_leb : string -> string -> bool.
Variable sort_values : list agg.row -> list agg.row.
Hypothesis collate_total : forall a b, collate_leb a b = true \/ collate_leb b a = true.
Hypothesis collate_trans : forall a b c,
  collate_leb a b = true -> collate_leb b c = true -> collate_leb a c = true.

(** X24 -- the trend runs forward in time: on a loaded table, under a
    collation that is a total preorder, the points of an agent's trend are
    in strictly increasing order of [week_start]: one point per week. *)
Theorem trend_is_chronological (vs : list viewings.row) (ps : list prospects.row)
    (df : list WeeklyMetric) (start_date end_date : date) (selected_agent : string)
    (i j : nat) (p1 p2 : date * option numeric) :
  load_weekly_data TO_DATE select_div_scale collate_leb vs ps = Some df ->
  (i < j)%nat ->
  agent_trend (render sort_values df start_date end_date selected_agent) !! i = Some p1 ->
  agent_trend (render sort_values df start_date end_date selected_agent) !! j = Some p2 ->
  date_lt p1.1 p2.1.
Proof.
  intros Hload Hij Hi Hj. simpl in Hi, Hj.
  apply list_lookup_fmap_Some in Hi as (r1 & -> & Hi).
  apply list_lookup_fmap_Some in Hj as (r2 & -> & Hj). simpl.
  pose proof (sublist_of_lookups _ i j r1 r2 Hij Hi Hj) as Hsub.
  pose proof (list_elem_of_lookup_2 _ _ _ Hi) as Hr1.
  pose proof (list_elem_of_lookup_2 _ _ _ Hj) as Hr2.
  apply list_elem_of_filter in Hr1 as [Ha1 _].
  apply list_elem_of_filter in Hr2 as [Ha2 _].
  assert (Hdf : [r1; r2] `sublist_of` df).
  { etrans; [exact Hsub|apply sublist_filter]. }
  pose proof (loaded_keys_NoDup _ _ _ _ _ _ Hload) as Hnd.
  assert (Hkeys : NoDup [(agent r1, week_start r1); (agent r2, week_start r2)]).
  { eapply sublist_NoDup; [exact Hnd|].
    change [(agent r1, week_start r1); (agent r2, week_start r2)]
      with ((fun r => (agent r, week_start r)) <$> [r1; r2]).
    by apply fmap_sublist. }
  assert (Hne : week_start r1 ≠ week_start r2).
  { intros Heq. apply NoDup_cons in Hkeys as [Hnin _]. apply Hnin.
    rewrite Ha1, Ha2, Heq. left. }
  destruct (load_weekly_data_Some _ _ _ _ _ _ Hload) as (cs & rows & _ & _ & _).
  unfold load_weekly_data in Hload.
  destruct (cleaned_viewings TO_DATE vs) as [cs'|]; [|done]. simpl in Hload.
  destruct (mapM _ _) as [rows'|]; [|done]. simpl in Hload. injection Hload as <-.
  pose proof (@StronglySorted_merge_sort _
                (fun r1 r2 => Is_true (order_by_leb collate_leb r1 r2)) _
                (order_by_trans collate_leb collate_trans)
                (order_by_total collate_leb collate_total) rows') as Hs.
  pose proof (StronglySorted_pair _ _ r1 r2 Hs Hdf) as Hord.
  apply Is_true_true, order_by_leb_spec in Hord as [Hlt|[Heq _]]; done.
Qed.
End trend.

Lemma trend_is_chronological_witness :
  exists df,
    pg_load_weekly_data two_week_viewings sample_prospects = Some df /\
    fst <$> agent_trend (render stable_sort df (mkdate 2024 1 1) (mkdate 2024 1 7) "B")
      = [mkdate 2024 1 1; mkdate 2024 1 8] /\
    date_lt (mkdate 2024 1 1) (mkdate 2024 1 8).
Proof.
  assert (Hload : exists df,
            pg_load_weekly_data two_week_viewings sample_prospects = Some df /\
            exists r1 r2,
              agent_trend (render stable_sort df (mkdate 2024 1 1)
                             (mkdate 2024 1 7) "B")
              = [(mkdate 2024 1 1, r1); (mkdate 2024 1 8, r2)]).
  { eexists. split; [vm_compute; reflexivity|]. eexists _, _. vm_compute. reflexivity. }
  destruct Hload as (df & Hload & r1 & r2 & Htrend).
  exists df. split; [done|]. split; [by rewrite Htrend|].
  apply (trend_is_chronological to_date_ddmmyyyy pg_select_div_scale String.leb
           stable_sort string_leb_total string_leb_trans two_week_viewings
           sample_prospects df (mkdate 2024 1 1) (mkdate 2024 1 7) "B"
           0%nat 1%nat (mkdate 2024 1 1, r1) (mkdate 2024 1 8, r2) Hload);
    [lia|by rewrite Htrend..].
Defined.

(** ** Two more worked cases *)

Lemma rejected_date_fails_query_witness :
  pg_load_weekly_data [viewings.mkrow (Some "p1") "A" "2024-01-01";
                       viewings.mkrow None "A" "01/01/2024"] [] = None /\
  is_Some (pg_load_weekly_data [viewings.mkrow (Some "p1") "A" "01/01/2024";
                                viewings.mkrow None "A" "2024-01-01"]
                               sample_prospects).
Proof.
  split.
  - apply (proj1 (rejected_date_fails_query to_date_ddmmyyyy pg_select_div_scale
                    String.leb _)).
    exists (viewings.mkrow (Some "p1") "A" "2024-01-01").
    split; [apply list_elem_of_here|]. split; [by eexists|reflexivity].
  - apply (proj2 (rejected_date_fails_query to_date_ddmmyyyy pg_select_div_scale
                    String.leb _)).
    intros v Hv Hpid. exists (mkdate 2024 1 1).
    inversion Hv as [|? ? ? Hv']; subst; [split; [reflexivity|by eexists]|].
    inversion Hv' as [|? ? ? Hv'']; subst; [by destruct Hpid|inversion Hv''].
Defined.

